(** * opencvx: oriented-rectangle particle filter

    A shallow embedding of the four headers of [src/opencvx]:
    - [cvrectpoints.h]            corners of a (sheared) rotated rectangle,
    - [cvparticlestaterect.h]     the five-dimensional particle state,
    - [cvparticleobservepcadiffs.h]  the PCA DIFS+DFFS observation model,
    - [cvparticleobservetemplate.h]  the template observation model.

    C [double]s are IEEE 754 binary64 values ([spec_float] with precision 53
    and maximal exponent 1024), C [int]s are integers of [Z] with 32-bit
    two's-complement wrap-around, a [CvMat] is its header (rows, cols) over
    a row-major buffer, and every access outside a buffer is an error. *)

From Stdlib Require Import ZArith Lia Bool Ascii.
From Stdlib Require Import Floats.SpecFloat.
From stdpp Require Import base option list strings.

Local Open Scope Z_scope.

(** ** C scalars *)

(** *** [int] *)

Definition INT_MIN : Z := - 2 ^ 31.
Definition INT_MAX : Z := 2 ^ 31 - 1.

Definition is_int (z : Z) : Prop := INT_MIN <= z <= INT_MAX.

(** Two's-complement wrap-around of a mathematical result into [int]. *)
Definition wrap_int (z : Z) : Z := (z + 2 ^ 31) mod 2 ^ 32 - 2 ^ 31.

Definition int_sub (a b : Z) : Z := wrap_int (a - b).
Definition int_mul (a b : Z) : Z := wrap_int (a * b).

(** *** [double] *)

Definition double : Type := spec_float.

Definition prec64 : Z := 53.
Definition emax64 : Z := 1024.

(** Implicit conversion [int -> double] (round to nearest even; exact on
    the whole [int] range). *)
Definition double_of_int (n : Z) : double := binary_normalize prec64 emax64 n 0 false.

(** The same rounding, from an exact integer accumulator. *)
Definition double_of_Z (n : Z) : double := binary_normalize prec64 emax64 n 0 false.

(** [bool -> double], as in the initialiser [{ ..., false, ..., true }]. *)
Definition double_of_bool (b : bool) : double := double_of_int (if b then 1 else 0).

Definition dsub (a b : double) : double := SFsub prec64 emax64 a b.
Definition dneg (a : double) : double := SFopp a.
Definition dlt (a b : double) : bool := SFltb a b.
Definition deq (a b : double) : bool := SFeqb a b.

Definition dadd (a b : double) : double := SFadd prec64 emax64 a b.
Definition dmul (a b : double) : double := SFmul prec64 emax64 a b.

(** The exponent of the smallest subnormal. *)
Definition emin64 : Z := emin prec64 emax64.

(** A result that is neither zero nor NaN: an infinity or a finite number
    of sign [sx]. *)
Definition positive_result (sx : bool) (r : spec_float) : Prop :=
  r = S754_infinity sx ∨ ∃ m e, r = S754_finite sx m e ∧ emin64 <= e.

(** [std::min<double>]: [(b < a) ? b : a]. *)
Definition dmin (a b : double) : double := if dlt b a then b else a.

(** *** [float] *)

(** Single precision values are [spec_float]s of precision 24 and maximal
    exponent 128. *)
Definition float : Type := spec_float.

Definition prec32 : Z := 24.
Definition emax32 : Z := 128.

(** Narrowing [double -> float] at a call that takes [float] arguments. *)
Definition float_of_double (d : double) : float :=
  match d with
  | S754_finite s m e => binary_round prec32 emax32 s m e
  | _ => d
  end.

(** Widening [float -> double]: exact, the mantissa is re-aligned. *)
Definition double_of_float (f : float) : double :=
  match f with
  | S754_finite s m e => binary_round prec64 emax64 s m e
  | _ => f
  end.

(** ** Control flow *)

(** [for( i = start; i < start + n; i++ ) body], threading the state [s]
    and stopping at the first failing iteration. *)
Fixpoint for_loop {S : Type} (body : S → Z → option S) (i : Z) (n : nat) (s : S)
  : option S :=
  match n with
  | O => Some s
  | Datatypes.S n' => s' ← body s i; for_loop body (i + 1) n' s'
  end.

(** ** cxtypes.h: sizes, points, images *)

Module Cv.

Record CvSize : Type := cvSize { width : Z; height : Z }.

Record CvPoint2D32f : Type := cvPoint2D32f { x : float; y : float }.

Record CvRect : Type := cvRect { rx : Z; ry : Z; rwidth : Z; rheight : Z }.

End Cv.

Module Ipl.

(** An image header and its pixel samples ([width * height * nChannels]
    of them, row by row). *)
Record IplImage : Type := mkIplImage {
  width : Z;
  height : Z;
  depth : Z;
  nChannels : Z;
  imageData : list Z
}.

End Ipl.

Definition cvGetSize (img : Ipl.IplImage) : Cv.CvSize :=
  Cv.cvSize (Ipl.width img) (Ipl.height img).

(** The depths of [IplImage]: [IPL_DEPTH_SIGN] is the sign bit of an
    [int]. *)
Definition IPL_DEPTH_SIGN : Z := - 2 ^ 31.
Definition IPL_DEPTH_1U : Z := 1.
Definition IPL_DEPTH_8U : Z := 8.
Definition IPL_DEPTH_16U : Z := 16.
Definition IPL_DEPTH_32F : Z := 32.
Definition IPL_DEPTH_64F : Z := 64.
Definition IPL_DEPTH_8S : Z := IPL_DEPTH_SIGN + 8.
Definition IPL_DEPTH_16S : Z := IPL_DEPTH_SIGN + 16.
Definition IPL_DEPTH_32S : Z := IPL_DEPTH_SIGN + 32.

(** The depths an image header accepts. *)
Definition ipl_depths : list Z :=
  [ IPL_DEPTH_1U; IPL_DEPTH_8U; IPL_DEPTH_8S; IPL_DEPTH_16U; IPL_DEPTH_16S;
    IPL_DEPTH_32S; IPL_DEPTH_32F; IPL_DEPTH_64F ].


(** [cvCreateImage( size, depth, channels )]: a fresh buffer.  The header
    is refused, and the call does not return, for a negative width or
    height ("Bad input roi"), an unknown depth or a negative number of
    channels ("Unsupported format"). *)
Definition cvCreateImage (size : Cv.CvSize) (depth channels : Z) : option Ipl.IplImage :=
  if bool_decide (0 <= Cv.width size ∧ 0 <= Cv.height size ∧
                  depth ∈ ipl_depths ∧ 0 <= channels)
  then Some (Ipl.mkIplImage (Cv.width size) (Cv.height size) depth channels
               (replicate (Z.to_nat (Cv.width size * Cv.height size * channels)) 0))
  else None.

(** An image whose samples were overwritten by a collaborator. *)
Definition with_data (img : Ipl.IplImage) (d : list Z) : Ipl.IplImage :=
  Ipl.mkIplImage (Ipl.width img) (Ipl.height img) (Ipl.depth img) (Ipl.nChannels img) d.

(** ** [CvMat]: a header over a row-major buffer of doubles *)

Record CvMat : Type := mkCvMat {
  rows : Z;
  cols : Z;
  data : list double
}.

(** [cvMat( rows, cols, CV_64FC1, data )]: a header over a caller's array. *)
Definition cvMat (r c : Z) (arr : list double) : CvMat := mkCvMat r c arr.

Definition mat_index (m : CvMat) (row col : Z) : nat := Z.to_nat (row * cols m + col).

Definition in_mat (m : CvMat) (row col : Z) : Prop :=
  0 <= row < rows m ∧ 0 <= col < cols m.

(** A matrix that owns exactly its [rows * cols] elements. *)
Definition mat_wf (m : CvMat) : Prop :=
  0 <= rows m ∧ 0 <= cols m ∧ length (data m) = Z.to_nat (rows m * cols m).

(** [cvmGet( mat, row, col )]. *)
Definition cvmGet (m : CvMat) (row col : Z) : option double :=
  if bool_decide (in_mat m row col) then data m !! mat_index m row col else None.

(** [cvmSet( mat, row, col, value )]. *)
Definition cvmSet (m : CvMat) (row col : Z) (v : double) : option CvMat :=
  if bool_decide (in_mat m row col ∧ (mat_index m row col < length (data m))%nat)
  then Some (mkCvMat (rows m) (cols m) (<[mat_index m row col := v]> (data m)))
  else None.

(** [cvCreateMat( rows, cols, CV_64FC1 )]: a fresh matrix. *)
Definition cvCreateMat (r c : Z) : CvMat :=
  mkCvMat r c (replicate (Z.to_nat (r * c)) (S754_zero false)).

(** [cvT( src, dst )]: [dst(i,j) = src(j,i)]; the sizes must agree. *)
Definition cvT (src dst : CvMat) : option CvMat :=
  if bool_decide (rows dst = cols src ∧ cols dst = rows src)
  then
    elems ← mapM (λ k : Z, cvmGet src (k `mod` cols dst) (k `div` cols dst))
                 (seqZ 0 (rows dst * cols dst));
    Some (mkCvMat (rows dst) (cols dst) elems)
  else None.

(** [cvReshape( mat, &hdr, 1, new_rows )]: a new header over the same
    buffer, read row by row. *)
Definition cvReshape (m : CvMat) (new_rows : Z) : option CvMat :=
  if bool_decide (0 < new_rows ∧ (rows m * cols m) `mod` new_rows = 0)
  then Some (mkCvMat new_rows ((rows m * cols m) `div` new_rows) (data m))
  else None.

(** Modelled from the spec: [cvSetCol( src, dst, col )] of [cvsetcols.h], which
    is not among the sources, is the collaborators' column assignment: the
    column vector [src] is copied into column [col] of [dst]. *)
Definition cvSetCol (src dst : CvMat) (col : Z) : option CvMat :=
  if bool_decide (rows src = rows dst ∧ cols src = 1)
  then for_loop (λ d r, v ← cvmGet src r 0; cvmSet d r col v) 0 (Z.to_nat (rows src)) dst
  else None.

(** [cvConvert( image, mat )] on a single-channel image: the sizes must
    agree; every sample is converted to [double]. *)
Definition cvConvert (img : Ipl.IplImage) (m : CvMat) : option CvMat :=
  if bool_decide (Ipl.height img = rows m ∧ Ipl.width img = cols m)
  then Some (mkCvMat (rows m) (cols m) (double_of_int <$> Ipl.imageData img))
  else None.

(** ** The particle ensemble *)

Module Particle.

(** Modelled from the spec: [struct CvParticle] is declared in [cvparticle.h],
    which is not among the sources; the fields are those of the spec's data
    model (state count, particle count, dynamics matrix, random seed, noise
    standard deviations, bound table, state matrix, log-likelihood vector),
    and the matrices hold doubles: the spec has the state values stored and
    read back in double precision, without conversion. *)
Record CvParticle : Type := mkCvParticle {
  num_states : Z;
  num_particles : Z;
  dynamics : CvMat;
  rng : Z;
  std : CvMat;
  bound : CvMat;
  particles : CvMat;
  probs : CvMat
}.

Definition set_particles (p : CvParticle) (m : CvMat) : CvParticle :=
  mkCvParticle (num_states p) (num_particles p) (dynamics p) (rng p) (std p) (bound p)
               m (probs p).

Definition set_probs (p : CvParticle) (m : CvMat) : CvParticle :=
  mkCvParticle (num_states p) (num_particles p) (dynamics p) (rng p) (std p) (bound p)
               (particles p) m.

(** Modelled from the spec: [cvParticleSetDynamics], [cvParticleSetNoise] and
    [cvParticleSetBound] of [cvparticle.h] are not among the sources; the
    configured matrices are handed to the engine, which keeps them. *)
Definition cvParticleSetDynamics (p : CvParticle) (m : CvMat) : CvParticle :=
  mkCvParticle (num_states p) (num_particles p) m (rng p) (std p) (bound p)
               (particles p) (probs p).

Definition cvParticleSetNoise (p : CvParticle) (seed : Z) (m : CvMat) : CvParticle :=
  mkCvParticle (num_states p) (num_particles p) (dynamics p) seed m (bound p)
               (particles p) (probs p).

Definition cvParticleSetBound (p : CvParticle) (m : CvMat) : CvParticle :=
  mkCvParticle (num_states p) (num_particles p) (dynamics p) (rng p) (std p) m
               (particles p) (probs p).

(** The ensemble invariant of the data model: the state matrix is
    [num_states x num_particles], the weight vector [1 x num_particles]. *)
Definition particle_wf (p : CvParticle) : Prop :=
  0 <= num_particles p ∧
  rows (particles p) = num_states p ∧ cols (particles p) = num_particles p ∧
  mat_wf (particles p) ∧
  rows (probs p) = 1 ∧ cols (probs p) = num_particles p ∧ mat_wf (probs p).

End Particle.

(** [cvRNG( seed )]. *)
Definition cvRNG (seed : Z) : Z := if seed =? 0 then 2 ^ 64 - 1 else seed `mod` 2 ^ 64.

(** ** cvrect32f.h: the rectangle types *)

Module Rect32f.

(** Modelled from the spec: [CvRect32f] and [CvBox32f] are declared in
    [cvrect32f.h], which is not among the sources: [{x, y, width, height,
    angle}] in single precision, and the centre-based [{cx, cy, width,
    height, angle}]. *)
Record CvRect32f : Type := mkCvRect32f {
  x : float; y : float; width : float; height : float; angle : float
}.

Record CvBox32f : Type := mkCvBox32f {
  cx : float; cy : float; bwidth : float; bheight : float; bangle : float
}.

(** [cvBox32f( cx, cy, width, height, angle )] takes [float]s; the call
    sites pass [double]s. *)
Definition cvBox32f (cx cy width height angle : double) : CvBox32f :=
  mkCvBox32f (float_of_double cx) (float_of_double cy) (float_of_double width)
             (float_of_double height) (float_of_double angle).

End Rect32f.

(** ** cvparticlestaterect.h *)

Module ParticleState.

Import Particle.

(** [int num_states = 5;] *)
Definition num_states : Z := 5.

Record CvParticleState : Type := mkCvParticleState {
  x : double;
  y : double;
  width : double;
  height : double;
  angle : double
}.

(** [double dynamics[]]. *)
Definition dynamics : list double :=
  double_of_int <$>
    [ 2; 0; 0; 0; 0;
      0; 2; 0; 0; 0;
      0; 0; 2; 0; 0;
      0; 0; 0; 2; 0;
      0; 0; 0; 0; 2 ].

(** Constructor. *)
Definition cvParticleState (x y width height angle : double) : CvParticleState :=
  mkCvParticleState x y width height angle.

(** Get a state (particle). *)
Definition cvParticleStateGet (p : CvParticle) (p_id : Z) : option CvParticleState :=
  sx ← cvmGet (particles p) 0 p_id;
  sy ← cvmGet (particles p) 1 p_id;
  sw ← cvmGet (particles p) 2 p_id;
  sh ← cvmGet (particles p) 3 p_id;
  sa ← cvmGet (particles p) 4 p_id;
  Some (mkCvParticleState sx sy sw sh sa).

(** Set a state (particle). *)
Definition cvParticleStateSet (p : CvParticle) (p_id : Z) (state : CvParticleState)
  : option CvParticle :=
  m0 ← cvmSet (particles p) 0 p_id (x state);
  m1 ← cvmSet m0 1 p_id (y state);
  m2 ← cvmSet m1 2 p_id (width state);
  m3 ← cvmSet m2 3 p_id (height state);
  m4 ← cvmSet m3 4 p_id (angle state);
  Some (set_particles p m4).

(** The three matrices built by [cvParticleStateConfig]. *)
Definition dynamicsmat (p : CvParticle) : CvMat :=
  cvMat (Particle.num_states p) (Particle.num_states p) dynamics.

Definition stdarr (std : CvParticleState) : list double :=
  [ x std; y std; width std; height std; angle std ].

Definition stdmat (p : CvParticle) (std : CvParticleState) : CvMat :=
  cvMat (Particle.num_states p) 1 (stdarr std).

Definition boundarr (imsize : Cv.CvSize) : list double :=
  [ double_of_int 0; double_of_int (int_sub (Cv.width imsize) 1); double_of_bool false;
    double_of_int 0; double_of_int (int_sub (Cv.height imsize) 1); double_of_bool false;
    double_of_int 1; double_of_int (Cv.width imsize); double_of_bool false;
    double_of_int 1; double_of_int (Cv.height imsize); double_of_bool false;
    double_of_int 0; double_of_int 360; double_of_bool true ].

Definition boundmat (p : CvParticle) (imsize : Cv.CvSize) : CvMat :=
  cvMat (Particle.num_states p) 3 (boundarr imsize).

(** Row [r] of a bound table: lower bound, upper bound, circular flag. *)
Definition bound_row (b : CvMat) (r : Z) : option (double * double * double) :=
  lo ← cvmGet b r 0; up ← cvmGet b r 1; circular ← cvmGet b r 2;
  Some (lo, up, circular).

(** Configuration of Particle filter; [now] is the value of [time( NULL )]. *)
Definition cvParticleStateConfig (now : Z) (p : CvParticle) (imsize : Cv.CvSize)
    (std : CvParticleState) : CvParticle :=
  let rng := cvRNG now in
  let p := cvParticleSetDynamics p (dynamicsmat p) in
  let p := cvParticleSetNoise p rng (stdmat p std) in
  cvParticleSetBound p (boundmat p imsize).

(** What the supplementary bound is specified to do to one state: the
    width is clamped to [imageWidth - x], the height to [imageHeight - y]. *)
Definition bounded_state (imsize : Cv.CvSize) (s : CvParticleState) : CvParticleState :=
  mkCvParticleState (x s) (y s)
    (dmin (width s) (dsub (double_of_int (Cv.width imsize)) (x s)))
    (dmin (height s) (dsub (double_of_int (Cv.height imsize)) (y s)))
    (angle s).

(** One iteration of the loop of [cvParticleStateAdditionalBound]. *)
Definition additional_bound_body (imsize : Cv.CvSize) (p : CvParticle) (np : Z)
  : option CvParticle :=
  x ← cvmGet (particles p) 0 np;
  y ← cvmGet (particles p) 1 np;
  width ← cvmGet (particles p) 2 np;
  height ← cvmGet (particles p) 3 np;
  let width := dmin width (dsub (double_of_int (Cv.width imsize)) x) in
  let height := dmin height (dsub (double_of_int (Cv.height imsize)) y) in
  m ← cvmSet (particles p) 2 np width;
  m ← cvmSet m 3 np height;
  Some (set_particles p m).

(** Call after transition. *)
Definition cvParticleStateAdditionalBound (p : CvParticle) (imsize : Cv.CvSize)
  : option CvParticle :=
  for_loop (additional_bound_body imsize) 0 (Z.to_nat (Particle.num_particles p)) p.

(** The state of the ensemble after the particles below [k] were bounded. *)
Definition bounded_below (imsize : Cv.CvSize) (p : CvParticle) (k : Z) (t : CvParticle)
  : Prop :=
  rows (particles t) = rows (particles p) ∧ cols (particles t) = cols (particles p) ∧
  mat_wf (particles t) ∧ num_particles t = num_particles p ∧
  ∀ j, cvParticleStateGet t j =
       if bool_decide (0 <= j < k) then bounded_state imsize <$> cvParticleStateGet p j
       else cvParticleStateGet p j.

End ParticleState.

(** ** Collaborators

    Functions of OpenCV and of opencvx headers that are not among the
    sources and whose results the code only passes on: the pixel content
    of a crop, a resize and a colour conversion, the intensity
    normalisation, the geometry of [cvrect32f.h] and [cvcreateaffine.h],
    the polygon test, the subspace distance and the model loader.  The
    headers (sizes, channel counts) of the buffers they fill are set by the
    code below, so only the content is left to them. *)

Module Box2D.

Record CvBox2D : Type := mkCvBox2D {
  center : Cv.CvPoint2D32f;
  size_width : float;
  size_height : float;
  angle : float
}.

End Box2D.

Class Collaborators : Type := {
  (* cv.h / cxcore.h *)
  resample : Ipl.IplImage → Z → Z → list Z;
  bgr2gray : Ipl.IplImage → list Z;
  cvRound : double → Z;
  cvBoxPoints : Box2D.CvBox2D → list Cv.CvPoint2D32f;
  cvPointPolygonTest : list Cv.CvPoint2D32f → Cv.CvPoint2D32f → Z → double;
  cvLoad : string → option CvMat;
  (* cvrect32f.h, cvcreateaffine.h, cvcropimageroi.h, cvgaussnorm.h, cvpcadiffs.h *)
  cvRect32fFromBox32f : Rect32f.CvBox32f → Rect32f.CvRect32f;
  cvRect32fFromRect : Cv.CvRect → Rect32f.CvRect32f;
  cvRectFromRect32f : Rect32f.CvRect32f → Cv.CvRect;
  cvBox2DFromRect32f : Rect32f.CvRect32f → Box2D.CvBox2D;
  cvCreateAffine : Rect32f.CvRect32f → Cv.CvPoint2D32f → CvMat;
  crop_roi : Ipl.IplImage → Rect32f.CvRect32f → Z → Z → list Z;
  gauss_norm : list double → list double;
  cvMatPcaDiffs : CvMat → CvMat → CvMat → CvMat → CvMat → option CvMat
}.

Section Imgproc.
Context `{Collaborators}.


(** [cvResize( src, dst )]: fills [dst] at [dst]'s own size. *)
Definition cvResize (src dst : Ipl.IplImage) : Ipl.IplImage :=
  with_data dst (resample src (Ipl.width dst) (Ipl.height dst)).

(** [cvCvtColor( src, dst, CV_BGR2GRAY )]. *)
Definition cvCvtColor (src dst : Ipl.IplImage) : Ipl.IplImage :=
  with_data dst (bgr2gray src).

(** [cvCropImageROI( img, dst, rect32f )]: fills [dst] at [dst]'s own size. *)
Definition cvCropImageROI (img dst : Ipl.IplImage) (rect : Rect32f.CvRect32f)
  : Ipl.IplImage :=
  with_data dst (crop_roi img rect (Ipl.width dst) (Ipl.height dst)).

(** [cvImgGaussNorm( mat, mat )], in place. *)
Definition cvImgGaussNorm (m : CvMat) : CvMat :=
  mkCvMat (rows m) (cols m) (gauss_norm (data m)).

End Imgproc.


(** Sum of the squared differences of two sample buffers. *)
Fixpoint sum_sq_diff (a b : list Z) : Z :=
  match a, b with
  | u :: a', v :: b' => (u - v) * (u - v) + sum_sq_diff a' b'
  | _, _ => 0
  end.

(** [cvNorm( a, b, CV_L2 )] on integer samples: the square root of the sum
    of the squared differences, the sum being exact and the root taken in
    [double]; buffers of different sizes or of different types (depth,
    channels) are an error. *)
Definition cvNorm (a b : Ipl.IplImage) : option double :=
  if bool_decide (Ipl.width a = Ipl.width b ∧ Ipl.height a = Ipl.height b ∧
                  Ipl.depth a = Ipl.depth b ∧ Ipl.nChannels a = Ipl.nChannels b)
  then Some (SFsqrt prec64 emax64
               (double_of_Z (sum_sq_diff (Ipl.imageData a) (Ipl.imageData b))))
  else None.

(** ** cvrectpoints.h *)

Module RectPoints.
Section RectPoints.
Context `{Collaborators}.

(** Element access to the [CV_32FC1] affine matrix: [cvmGet] widens. *)
Definition cvmGet32 (A : CvMat) (row col : Z) : option double :=
  double_of_float <$> cvmGet A row col.

(** The body of the loop of the affine branch, on one point. *)
Definition affine_apply (A : CvMat) (pt : Cv.CvPoint2D32f) : option Cv.CvPoint2D32f :=
  a00 ← cvmGet32 A 0 0; a01 ← cvmGet32 A 0 1; a02 ← cvmGet32 A 0 2;
  a10 ← cvmGet32 A 1 0; a11 ← cvmGet32 A 1 1; a12 ← cvmGet32 A 1 2;
  let px := double_of_float (Cv.x pt) in
  let py := double_of_float (Cv.y pt) in
  let tmp_x := float_of_double (dadd (dadd (dmul a00 px) (dmul a01 py)) a02) in
  let tmp_y := float_of_double (dadd (dadd (dmul a10 px) (dmul a11 py)) a12) in
  Some (Cv.cvPoint2D32f tmp_x tmp_y).

Definition float_of_int (n : Z) : float := binary_normalize prec32 emax32 n 0 false.

(** The unit square [0 0; 1 0; 1 1; 0 1]. *)
Definition unit_square : list Cv.CvPoint2D32f :=
  [ Cv.cvPoint2D32f (float_of_int 0) (float_of_int 0);
    Cv.cvPoint2D32f (float_of_int 1) (float_of_int 0);
    Cv.cvPoint2D32f (float_of_int 1) (float_of_int 1);
    Cv.cvPoint2D32f (float_of_int 0) (float_of_int 1) ].

Definition is_zero (f : float) : bool := SFeqb f (float_of_int 0).

(** Find 4 corners of rectangle. *)
Definition cvRect32fPoints (rect : Rect32f.CvRect32f) (shear : Cv.CvPoint2D32f)
  : option (list Cv.CvPoint2D32f) :=
  if is_zero (Cv.x shear) && is_zero (Cv.y shear)
  then
    let box2d := cvBox2DFromRect32f rect in
    Some (cvBoxPoints box2d)
  else
    let A := cvCreateAffine rect shear in
    mapM (affine_apply A) unit_square.

(** Find 4 corners of box. *)
Definition cvBox32fPoints (box : Rect32f.CvBox32f) (shear : Cv.CvPoint2D32f)
  : option (list Cv.CvPoint2D32f) :=
  cvRect32fPoints (cvRect32fFromBox32f box) shear.

(** Find 4 corners of rectangle (integer rectangle). *)
Definition cvRectPoints (rect : Cv.CvRect) (shear : Cv.CvPoint2D32f)
  : option (list Cv.CvPoint2D32f) :=
  cvRect32fPoints (cvRect32fFromRect rect) shear.

(** cvpointrecttest.h: point in rectangle test. *)
Definition cvPointRect32fTest (rect : Rect32f.CvRect32f) (pt : Cv.CvPoint2D32f)
    (measure_dist : Z) (shear : Cv.CvPoint2D32f) : option double :=
  points ← cvRect32fPoints rect shear;
  Some (cvPointPolygonTest points pt measure_dist).

(** Point in rectangle test (integer rectangle, no shear). *)
Definition cvPointRectTest (rect : Cv.CvRect) (pt : Cv.CvPoint2D32f) (measure_dist : Z)
  : option double :=
  cvPointRect32fTest (cvRect32fFromRect rect) pt measure_dist
    (Cv.cvPoint2D32f (float_of_int 0) (float_of_int 0)).

End RectPoints.
End RectPoints.

(** ** cvparticleobservepcadiffs.h *)

Module ObservePcaDiffs.
Import Particle.

(** The globals of the file. *)
Record Globals : Type := mkGlobals {
  num_observes : Z;
  feature_size : Cv.CvSize;
  data_dir : string;
  data_pcaval : string;
  data_pcavec : string;
  data_pcaavg : string;
  eigenvalues : option CvMat;
  eigenvectors : option CvMat;
  eigenavg : option CvMat
}.


Definition set_feature_size (g : Globals) (fs : Cv.CvSize) : Globals :=
  mkGlobals (num_observes g) fs (data_dir g) (data_pcaval g) (data_pcavec g)
            (data_pcaavg g) (eigenvalues g) (eigenvectors g) (eigenavg g).

Definition set_eigenvalues (g : Globals) (m : option CvMat) : Globals :=
  mkGlobals (num_observes g) (feature_size g) (data_dir g) (data_pcaval g) (data_pcavec g)
            (data_pcaavg g) m (eigenvectors g) (eigenavg g).

Definition set_eigenvectors (g : Globals) (m : option CvMat) : Globals :=
  mkGlobals (num_observes g) (feature_size g) (data_dir g) (data_pcaval g) (data_pcavec g)
            (data_pcaavg g) (eigenvalues g) m (eigenavg g).

Definition set_eigenavg (g : Globals) (m : option CvMat) : Globals :=
  mkGlobals (num_observes g) (feature_size g) (data_dir g) (data_pcaval g) (data_pcavec g)
            (data_pcaavg g) (eigenvalues g) (eigenvectors g) m.

(** How a call ends: it returns with the globals it leaves, or the process
    is terminated by [exit( status )] after writing [cerr]. *)
Inductive outcome : Type :=
  | Returned (g : Globals)
  | Exited (status : Z) (cerr : string).

Definition not_loadable (filename : string) : string :=
  filename +:+ " is not loadable." +:+ String "010"%char EmptyString.

Section ObservePcaDiffs.
Context `{Collaborators}.

(** Initialization. *)
Definition cvParticleObserveInitialize (g : Globals) : outcome :=
  let filename := data_dir g +:+ data_pcaval g in
  let g := set_eigenvalues g (cvLoad filename) in
  if bool_decide (eigenvalues g = None) then Exited 1 (not_loadable filename) else
  let filename := data_dir g +:+ data_pcavec g in
  let g := set_eigenvectors g (cvLoad filename) in
  if bool_decide (eigenvectors g = None) then Exited 1 (not_loadable filename) else
  let filename := data_dir g +:+ data_pcaavg g in
  let g := set_eigenavg g (cvLoad filename) in
  if bool_decide (eigenavg g = None) then Exited 1 (not_loadable filename) else
  Returned g.

(** Finalization. *)
Definition cvParticleObserveFinalize (g : Globals) : Globals :=
  set_eigenavg (set_eigenvectors (set_eigenvalues g None) None) None.

(** The buffer [resize] that [icvPreprocess] allocates for [mat]. *)
Definition preprocess_resize_buffer (patch : Ipl.IplImage) (mat : CvMat)
  : option Ipl.IplImage :=
  cvCreateImage (Cv.cvSize (rows mat) (cols mat)) (Ipl.depth patch) 1.

(** Preprocess as did in training PCA subspace. *)
Definition icvPreprocess (patch : Ipl.IplImage) (mat : CvMat) : option CvMat :=
  gry ← (if bool_decide (Ipl.nChannels patch ≠ 1)
         then gry ← cvCreateImage (cvGetSize patch) (Ipl.depth patch) 1;
              Some (cvCvtColor patch gry)
         else Some patch);
  resize ← preprocess_resize_buffer patch mat;
  let resize := cvResize gry resize in
  mat ← cvConvert resize mat;
  Some (cvImgGaussNorm mat).

(** The state threaded through the loop of [icvGetFeatures]: the two
    scratch matrices and the feature matrix. *)
Record features_state : Type := mkFeaturesState {
  normed : CvMat;
  normedT : CvMat;
  features : CvMat
}.

(** One iteration of the loop of [icvGetFeatures]. *)
Definition get_features_body (fs : Cv.CvSize) (p : CvParticle) (frame : Ipl.IplImage)
    (st : features_state) (n : Z) : option features_state :=
  let feature_height := Cv.height fs in
  let feature_width := Cv.width fs in
  s ← ParticleState.cvParticleStateGet p n;
  let box32f := Rect32f.cvBox32f (ParticleState.x s) (ParticleState.y s)
                  (ParticleState.width s) (ParticleState.height s)
                  (ParticleState.angle s) in
  let rect32f := cvRect32fFromBox32f box32f in
  patch ← cvCreateImage (Cv.cvSize (cvRound (ParticleState.width s))
                                   (cvRound (ParticleState.height s)))
            (Ipl.depth frame) (Ipl.nChannels frame);
  let patch := cvCropImageROI frame patch rect32f in
  normed' ← icvPreprocess patch (normed st);
  normedT' ← cvT normed' (normedT st);
  feature ← cvReshape normedT' (int_mul feature_height feature_width);
  features' ← cvSetCol feature (features st) n;
  Some (mkFeaturesState normed' normedT' features').

(** What the features of a particle are to be taken from: the image of
    [cvRound( width ) x cvRound( height )] samples per channel that the crop
    collaborator returns for the rectangle of the state. *)
Definition particle_patch (frame : Ipl.IplImage) (s : ParticleState.CvParticleState)
  : Ipl.IplImage :=
  let w := cvRound (ParticleState.width s) in
  let h := cvRound (ParticleState.height s) in
  Ipl.mkIplImage w h (Ipl.depth frame) (Ipl.nChannels frame)
    (crop_roi frame
       (cvRect32fFromBox32f
          (Rect32f.cvBox32f (ParticleState.x s) (ParticleState.y s) (ParticleState.width s)
             (ParticleState.height s) (ParticleState.angle s))) w h).



(** Get observation features. *)
Definition icvGetFeatures (fs : Cv.CvSize) (p : CvParticle) (frame : Ipl.IplImage)
    (features : CvMat) : option CvMat :=
  let feature_height := Cv.height fs in
  let feature_width := Cv.width fs in
  let normed := cvCreateMat feature_height feature_width in
  let normedT := cvCreateMat feature_width feature_height in
  st ← for_loop (get_features_body fs p frame) 0 (Z.to_nat (num_particles p))
         (mkFeaturesState normed normedT features);
  Some (ObservePcaDiffs.features st).

(** Likelihood measurements of the PCA model. *)
Definition cvParticleObserveLikelihood (g : Globals) (p : CvParticle) (frame : Ipl.IplImage)
  : option CvParticle :=
  let feature_height := Cv.height (feature_size g) in
  let feature_width := Cv.width (feature_size g) in
  let features := cvCreateMat (int_mul feature_height feature_width) (num_particles p) in
  features ← icvGetFeatures (feature_size g) p frame features;
  avg ← eigenavg g; val ← eigenvalues g; vec ← eigenvectors g;
  probs' ← cvMatPcaDiffs features avg val vec (probs p);
  Some (set_probs p probs').

End ObservePcaDiffs.
End ObservePcaDiffs.

(** ** cvparticleobservetemplate.h *)

Module ObserveTemplate.
Import Particle.

(** [CvSize feature_size = cvSize(24, 24);] *)
Definition feature_size : Cv.CvSize := Cv.cvSize 24 24.

Section ObserveTemplate.
Context `{Collaborators}.

(** One iteration of the loop: the state is the ensemble and the buffer
    [resize], which every iteration overwrites. *)
Definition likelihood_body (frame reference : Ipl.IplImage)
    (st : CvParticle * Ipl.IplImage) (i : Z) : option (CvParticle * Ipl.IplImage) :=
  let '(p, resize) := st in
  s ← ParticleState.cvParticleStateGet p i;
  let box32f := Rect32f.cvBox32f (ParticleState.x s) (ParticleState.y s)
                  (ParticleState.width s) (ParticleState.height s)
                  (ParticleState.angle s) in
  let rect32f := cvRect32fFromBox32f box32f in
  let rect := cvRectFromRect32f rect32f in
  patch ← cvCreateImage (Cv.cvSize (Cv.rwidth rect) (Cv.rheight rect))
            (Ipl.depth frame) (Ipl.nChannels frame);
  let patch := cvCropImageROI frame patch rect32f in
  let resize := cvResize patch resize in
  norm ← cvNorm resize reference;
  let likeli := dneg norm in
  probs' ← cvmSet (probs p) 0 i likeli;
  Some (set_probs p probs', resize).

(** Likelihood of every particle; [fs] is the global [feature_size]. *)
Definition cvParticleObserveLikelihood (fs : Cv.CvSize) (p : CvParticle)
    (frame reference : Ipl.IplImage) : option CvParticle :=
  resize ← cvCreateImage fs (Ipl.depth frame) (Ipl.nChannels frame);
  st ← for_loop (likelihood_body frame reference) 0 (Z.to_nat (num_particles p))
         (p, resize);
  Some (fst st).

(** The rectangle of a state, and its integer rectangle. *)
Definition state_rect32f (s : ParticleState.CvParticleState) : Rect32f.CvRect32f :=
  cvRect32fFromBox32f
    (Rect32f.cvBox32f (ParticleState.x s) (ParticleState.y s) (ParticleState.width s)
       (ParticleState.height s) (ParticleState.angle s)).

Definition state_rect (s : ParticleState.CvParticleState) : Cv.CvRect :=
  cvRectFromRect32f (state_rect32f s).

(** What a particle is to be scored on: the upright crop of the frame,
    as wide and as high as the (unrotated) rectangle of the state, with the
    samples the crop collaborator returns for that rectangle. *)
Definition particle_patch (frame : Ipl.IplImage) (s : ParticleState.CvParticleState)
  : Ipl.IplImage :=
  Ipl.mkIplImage (Cv.rwidth (state_rect s)) (Cv.rheight (state_rect s))
    (Ipl.depth frame) (Ipl.nChannels frame)
    (crop_roi frame (state_rect32f s) (Cv.rwidth (state_rect s)) (Cv.rheight (state_rect s))).


(** The negated L2 norm of the sample-wise difference of two buffers. *)
Definition negated_norm (a b : list Z) : double :=
  dneg (SFsqrt prec64 emax64 (double_of_Z (sum_sq_diff a b))).


(** The reference patch has the feature size and the type of the frame. *)
Definition reference_fits (fs : Cv.CvSize) (frame reference : Ipl.IplImage) : Prop :=
  Ipl.width reference = Cv.width fs ∧ Ipl.height reference = Cv.height fs ∧
  Ipl.depth reference = Ipl.depth frame ∧
  Ipl.nChannels reference = Ipl.nChannels frame.



End ObserveTemplate.
End ObserveTemplate.

(** ** Example data *)

Module Examples.
Import Particle.

(** Collaborators for the examples: the resize and the crop copy the first
    samples of their source (padding with 0), the colour conversion and the
    normalisation keep the samples, [cvRound] truncates, rectangles keep
    the numbers of the box they come from, and no file can be loaded. *)
Definition copy_samples (src : Ipl.IplImage) (w h : Z) : list Z :=
  resize (Z.to_nat (w * h * Ipl.nChannels src)) 0 (Ipl.imageData src).

Definition truncate (d : double) : Z :=
  match d with
  | S754_finite s m e => cond_Zopp s (Z.shiftl (Z.pos m) e)
  | _ => 0
  end.

#[export] Instance collaborators : Collaborators := {|
  resample := copy_samples;
  bgr2gray := Ipl.imageData;
  cvRound := truncate;
  cvBoxPoints := λ _, [];
  cvPointPolygonTest := λ _ _ _, S754_zero false;
  cvLoad := λ _, None;
  cvRect32fFromBox32f := λ b,
    Rect32f.mkCvRect32f (Rect32f.cx b) (Rect32f.cy b) (Rect32f.bwidth b)
                        (Rect32f.bheight b) (Rect32f.bangle b);
  cvRect32fFromRect := λ r,
    Rect32f.mkCvRect32f (RectPoints.float_of_int (Cv.rx r)) (RectPoints.float_of_int (Cv.ry r))
      (RectPoints.float_of_int (Cv.rwidth r)) (RectPoints.float_of_int (Cv.rheight r))
      (RectPoints.float_of_int 0);
  cvRectFromRect32f := λ r,
    Cv.cvRect (truncate (Rect32f.x r)) (truncate (Rect32f.y r))
              (truncate (Rect32f.width r)) (truncate (Rect32f.height r));
  cvBox2DFromRect32f := λ r,
    Box2D.mkCvBox2D (Cv.cvPoint2D32f (Rect32f.x r) (Rect32f.y r))
                    (Rect32f.width r) (Rect32f.height r) (Rect32f.angle r);
  cvCreateAffine := λ _ _, cvCreateMat 2 3;
  crop_roi := λ img _ w h, copy_samples img w h;
  gauss_norm := λ d, d;
  cvMatPcaDiffs := λ _ _ _ _ _, None
|}.

(** Two particles: [{90, 90, 50, 50, 0}] and [{10, 20, 2, 1, 0}]. *)
Definition ensemble : CvParticle :=
  mkCvParticle 5 2 (cvCreateMat 5 5) 0 (cvCreateMat 5 1) (cvCreateMat 5 3)
    (mkCvMat 5 2 (double_of_int <$> [ 90; 10;
                                       90; 20;
                                       50; 2;
                                       50; 1;
                                       0; 0 ]))
    (cvCreateMat 1 2).

Definition imsize : Cv.CvSize := Cv.cvSize 100 100.

Definition state : ParticleState.CvParticleState :=
  ParticleState.cvParticleState (double_of_int 3) (double_of_int 4) (double_of_int 5)
    (double_of_int 6) (double_of_int 7).

(** A 2x1 single-channel frame, and a reference of the same size. *)
Definition frame : Ipl.IplImage := Ipl.mkIplImage 2 1 8 1 [ 10; 20 ].
Definition reference : Ipl.IplImage := Ipl.mkIplImage 2 1 8 1 [ 10; 23 ].
Definition feature_size : Cv.CvSize := Cv.cvSize 2 1.

(** A feature size that is not square. *)
Definition wide_feature_size : Cv.CvSize := Cv.cvSize 24 12.

End Examples.

(** ** cvparticlestaterect.h: drawing *)

Module Draw.
Import Particle.

(** [CvScalar]: four doubles. *)
Record CvScalar : Type := cvScalar {
  val0 : double; val1 : double; val2 : double; val3 : double
}.

(** The drawing primitive [cvDrawRectangle( img, rect32f, shear, color )]
    of [cvdrawrectangle.h], which is not among the sources: it returns the
    image with the rectangle drawn on it. *)
Class Drawing : Type := {
  cvDrawRectangle :
    Ipl.IplImage → Rect32f.CvRect32f → Cv.CvPoint2D32f → CvScalar → Ipl.IplImage
}.

Section Draw.
Context `{Collaborators} `{Drawing}.

(** The rectangle of a state: the centre-based box turned into a
    rectangle, as every function of these files does before it uses it. *)
Definition state_rect (s : ParticleState.CvParticleState) : Rect32f.CvRect32f :=
  let box32f := Rect32f.cvBox32f (ParticleState.x s) (ParticleState.y s)
                  (ParticleState.width s) (ParticleState.height s)
                  (ParticleState.angle s) in
  cvRect32fFromBox32f box32f.

(** The branch [pid != -1] of [cvParticleStateDraw]: one particle. *)
Definition draw_particle (p : CvParticle) (img : Ipl.IplImage) (color : CvScalar)
    (pid : Z) : option Ipl.IplImage :=
  s ← ParticleState.cvParticleStateGet p pid;
  let box32f := Rect32f.cvBox32f (ParticleState.x s) (ParticleState.y s)
                  (ParticleState.width s) (ParticleState.height s)
                  (ParticleState.angle s) in
  let rect32f := cvRect32fFromBox32f box32f in
  Some (cvDrawRectangle img rect32f
          (Cv.cvPoint2D32f (RectPoints.float_of_int 0) (RectPoints.float_of_int 0)) color).

(** Draw a particle or particles by rectangle on given image.  With
    [pid == -1] the function calls itself for [i = 0 .. num_particles - 1];
    none of these is [-1], so each call takes the other branch. *)
Definition cvParticleStateDraw (p : CvParticle) (img : Ipl.IplImage) (color : CvScalar)
    (pid : Z) : option Ipl.IplImage :=
  if bool_decide (pid = -1)
  then for_loop (λ img i, draw_particle p img color i) 0 (Z.to_nat (num_particles p)) img
  else draw_particle p img color pid.

End Draw.
End Draw.

(** ** More example data *)

Module MoreExamples.
Import Particle.

(** The drawing of the examples records the width of each rectangle it
    is asked to draw, as a sample appended to the image. *)
#[export] Instance drawing : Draw.Drawing := {|
  Draw.cvDrawRectangle := λ img r _ _,
    with_data img (Ipl.imageData img ++ [Examples.truncate (Rect32f.width r)])
|}.

Definition red : Draw.CvScalar :=
  Draw.cvScalar (double_of_int 0) (double_of_int 0) (double_of_int 255) (double_of_int 0).

(** An image large enough for both example particles. *)
Definition large_imsize : Cv.CvSize := Cv.cvSize 200 200.

(** The second particle of the example ensemble. *)
Definition second_state : ParticleState.CvParticleState :=
  ParticleState.cvParticleState (double_of_int 10) (double_of_int 20) (double_of_int 2)
    (double_of_int 1) (double_of_int 0).


(** An ensemble created with three states only. *)
Definition three_states : CvParticle :=
  mkCvParticle 3 1 (cvCreateMat 3 3) 0 (cvCreateMat 3 1) (cvCreateMat 3 3)
    (cvCreateMat 3 1) (cvCreateMat 1 1).

(** One particle [{150, 0, -50, 1, 0}], of negative width. *)
Definition negative_width : CvParticle :=
  mkCvParticle 5 1 (cvCreateMat 5 5) 0 (cvCreateMat 5 1) (cvCreateMat 5 3)
    (mkCvMat 5 1 (double_of_int <$> [ 150; 0; -50; 1; 0 ]))
    (cvCreateMat 1 1).

Definition negative_width_state : ParticleState.CvParticleState :=
  ParticleState.cvParticleState (double_of_int 150) (double_of_int 0) (double_of_int (-50))
    (double_of_int 1) (double_of_int 0).



End MoreExamples.

(** * Properties *)

(** ** Matrix element access *)

Section MatrixAccess.
Implicit Types (m : CvMat) (v : double).

Lemma mat_index_inj m r c r' c' :
  in_mat m r c → in_mat m r' c' →
  mat_index m r c = mat_index m r' c' → r = r' ∧ c = c'.
Proof.
  unfold in_mat, mat_index. intros [Hr Hc] [Hr' Hc'] E.
  apply Z2Nat.inj in E; [|nia..].
  assert (r = r') by nia. subst r'. split; [done | lia].
Qed.

Lemma mat_index_lt m r c :
  mat_wf m → in_mat m r c → (mat_index m r c < length (data m))%nat.
Proof.
  unfold mat_wf, in_mat, mat_index. intros (_ & _ & ->) [Hr Hc].
  apply Z2Nat.inj_lt; nia.
Qed.

Lemma cvmSet_Some m r c v :
  mat_wf m → in_mat m r c →
  cvmSet m r c v = Some (mkCvMat (rows m) (cols m) (<[mat_index m r c := v]> (data m))).
Proof.
  intros Hwf Hin. unfold cvmSet. rewrite bool_decide_eq_true_2; [done|].
  split; [done | by apply mat_index_lt].
Qed.

Lemma cvmSet_inv m r c v m' :
  cvmSet m r c v = Some m' →
  in_mat m r c ∧ (mat_index m r c < length (data m))%nat ∧
  m' = mkCvMat (rows m) (cols m) (<[mat_index m r c := v]> (data m)).
Proof.
  unfold cvmSet. case_bool_decide as Hc; [|done].
  intros [= <-]. by destruct Hc.
Qed.

Lemma cvmSet_rows m r c v m' : cvmSet m r c v = Some m' → rows m' = rows m.
Proof. intros (_ & _ & ->)%cvmSet_inv. done. Qed.

Lemma cvmSet_cols m r c v m' : cvmSet m r c v = Some m' → cols m' = cols m.
Proof. intros (_ & _ & ->)%cvmSet_inv. done. Qed.

Lemma cvmSet_wf m r c v m' : cvmSet m r c v = Some m' → mat_wf m → mat_wf m'.
Proof.
  intros (_ & _ & ->)%cvmSet_inv. unfold mat_wf. simpl.
  by rewrite length_insert.
Qed.

Lemma cvmGet_cvmSet_eq m r c v m' :
  cvmSet m r c v = Some m' → cvmGet m' r c = Some v.
Proof.
  intros (Hin & Hlt & ->)%cvmSet_inv. unfold cvmGet.
  rewrite bool_decide_eq_true_2 by done.
  unfold mat_index at 1. simpl. by apply list_lookup_insert_eq.
Qed.

Lemma cvmGet_cvmSet_ne m r c v m' r' c' :
  cvmSet m r c v = Some m' → (r', c') ≠ (r, c) →
  cvmGet m' r' c' = cvmGet m r' c'.
Proof.
  intros (Hin & Hlt & ->)%cvmSet_inv Hne. unfold cvmGet.
  destruct (decide (in_mat m r' c')) as [Hin'|Hout].
  - rewrite !bool_decide_eq_true_2 by done.
    unfold mat_index at 1. simpl. apply list_lookup_insert_ne.
    intros E. apply mat_index_inj in E as [-> ->]; done.
  - by rewrite !bool_decide_eq_false_2.
Qed.

Lemma cvmGet_is_Some m r c : mat_wf m → in_mat m r c → is_Some (cvmGet m r c).
Proof.
  intros Hwf Hin. unfold cvmGet. rewrite bool_decide_eq_true_2 by done.
  apply lookup_lt_is_Some. by apply mat_index_lt.
Qed.

Lemma cvmGet_in_mat m r c v : cvmGet m r c = Some v → in_mat m r c.
Proof. unfold cvmGet. by case_bool_decide. Qed.

End MatrixAccess.

(** ** cvparticlestaterect.h: the accessors *)

Section StateAccessors.
Import Particle ParticleState.

Lemma cvmSet_total m r c v :
  mat_wf m → in_mat m r c →
  ∃ m', cvmSet m r c v = Some m' ∧ mat_wf m' ∧ rows m' = rows m ∧ cols m' = cols m.
Proof.
  intros Hwf Hin. eexists. split; [by apply cvmSet_Some|].
  split; [|done]. eapply cvmSet_wf; [by apply cvmSet_Some | done].
Qed.

(** Reading back through a chain of writes to other elements. *)
Ltac get_through :=
  repeat match goal with
  | H : cvmSet ?m ?r ?c ?v = Some ?m' |- context [cvmGet ?m' ?r' ?c'] =>
      first [ rewrite (cvmGet_cvmSet_eq m r c v m' H)
            | rewrite (cvmGet_cvmSet_ne m r c v m' r' c' H) by (intros [=]; lia) ]
  end.

Lemma cvParticleStateSet_inv p i s p' :
  cvParticleStateSet p i s = Some p' →
  cvParticleStateGet p' i = Some s ∧
  (∀ r j, j ≠ i → cvmGet (particles p') r j = cvmGet (particles p) r j) ∧
  rows (particles p') = rows (particles p) ∧ cols (particles p') = cols (particles p) ∧
  (mat_wf (particles p) → mat_wf (particles p')) ∧
  probs p' = probs p ∧ Particle.num_states p' = Particle.num_states p ∧
  num_particles p' = num_particles p.
Proof.
  unfold cvParticleStateSet. intros Hset.
  destruct (cvmSet (particles p) 0 i (x s)) as [m0|] eqn:H0; simpl in Hset; [|done].
  destruct (cvmSet m0 1 i (y s)) as [m1|] eqn:H1; simpl in Hset; [|done].
  destruct (cvmSet m1 2 i (width s)) as [m2|] eqn:H2; simpl in Hset; [|done].
  destruct (cvmSet m2 3 i (height s)) as [m3|] eqn:H3; simpl in Hset; [|done].
  destruct (cvmSet m3 4 i (angle s)) as [m4|] eqn:H4; simpl in Hset; [|done].
  injection Hset as <-. simpl.
  split; [|split; [|split; [|split; [|split]]]]; try done.
  - unfold cvParticleStateGet. simpl. get_through. simpl. by destruct s.
  - intros r j Hj.
    rewrite (cvmGet_cvmSet_ne _ _ _ _ _ r j H4) by (intros [=]; lia).
    rewrite (cvmGet_cvmSet_ne _ _ _ _ _ r j H3) by (intros [=]; lia).
    rewrite (cvmGet_cvmSet_ne _ _ _ _ _ r j H2) by (intros [=]; lia).
    rewrite (cvmGet_cvmSet_ne _ _ _ _ _ r j H1) by (intros [=]; lia).
    by rewrite (cvmGet_cvmSet_ne _ _ _ _ _ r j H0) by (intros [=]; lia).
  - rewrite (cvmSet_rows _ _ _ _ _ H4), (cvmSet_rows _ _ _ _ _ H3),
      (cvmSet_rows _ _ _ _ _ H2), (cvmSet_rows _ _ _ _ _ H1).
    by apply (cvmSet_rows _ _ _ _ _ H0).
  - rewrite (cvmSet_cols _ _ _ _ _ H4), (cvmSet_cols _ _ _ _ _ H3),
      (cvmSet_cols _ _ _ _ _ H2), (cvmSet_cols _ _ _ _ _ H1).
    by apply (cvmSet_cols _ _ _ _ _ H0).
  - intros Hwf. eapply cvmSet_wf; [exact H4|]. eapply cvmSet_wf; [exact H3|].
    eapply cvmSet_wf; [exact H2|]. eapply cvmSet_wf; [exact H1|].
    eapply cvmSet_wf; [exact H0|]. done.
Qed.

Lemma cvParticleStateSet_total p i s :
  particle_wf p → Particle.num_states p = ParticleState.num_states →
  0 <= i < num_particles p →
  is_Some (cvParticleStateSet p i s).
Proof.
  intros (HN & Hrows & Hcols & Hwf & _) H5 Hi. unfold ParticleState.num_states in H5.
  unfold cvParticleStateSet.
  destruct (cvmSet_total (particles p) 0 i (x s)) as (m0 & -> & W0 & R0 & C0);
    [done | unfold in_mat; lia |]; simpl.
  destruct (cvmSet_total m0 1 i (y s)) as (m1 & -> & W1 & R1 & C1);
    [done | unfold in_mat; lia |]; simpl.
  destruct (cvmSet_total m1 2 i (width s)) as (m2 & -> & W2 & R2 & C2);
    [done | unfold in_mat; lia |]; simpl.
  destruct (cvmSet_total m2 3 i (height s)) as (m3 & -> & W3 & R3 & C3);
    [done | unfold in_mat; lia |]; simpl.
  destruct (cvmSet_total m3 4 i (angle s)) as (m4 & -> & W4 & R4 & C4);
    [done | unfold in_mat; lia |]; simpl.
  done.
Qed.

(** C2. Setting the state of a valid particle index [i] of a well-formed
    five-state ensemble succeeds, and getting index [i] afterwards returns
    exactly the state that was set: the five doubles are stored and read
    back unchanged. *)
Theorem state_set_get_roundtrip (p : CvParticle) (i : Z) (s : CvParticleState) :
  particle_wf p → Particle.num_states p = ParticleState.num_states →
  0 <= i < num_particles p →
  ∃ p', cvParticleStateSet p i s = Some p' ∧ cvParticleStateGet p' i = Some s.
Proof.
  intros Hwf H5 Hi.
  destruct (cvParticleStateSet_total p i s Hwf H5 Hi) as [p' Hp'].
  exists p'. split; [done|]. by apply cvParticleStateSet_inv in Hp' as [? _].
Qed.

End StateAccessors.

(** ** The counted loop *)

Section ForLoop.
Context {S : Type} (body : S → Z → option S).

(** An invariant indexed by the loop counter holds when the loop returns. *)
Lemma for_loop_invariant (Inv : Z → S → Prop) n : ∀ i s s',
  Inv i s →
  (∀ k t t', i <= k < i + Z.of_nat n → Inv k t → body t k = Some t' → Inv (k + 1) t') →
  for_loop body i n s = Some s' → Inv (i + Z.of_nat n) s'.
Proof.
  induction n as [|n IH]; intros i s s' Hi Hstep Hrun; simpl in Hrun.
  - injection Hrun as <-. by replace (i + Z.of_nat 0) with i by lia.
  - destruct (body s i) as [t|] eqn:Hb; simpl in Hrun; [|done].
    replace (i + Z.of_nat (Datatypes.S n)) with ((i + 1) + Z.of_nat n) by lia.
    apply (IH (i + 1) t s'); [| |done].
    + apply (Hstep i s t); [lia|done..].
    + intros k u u' Hk. apply Hstep. lia.
Qed.

(** The loop returns when every iteration does under the invariant. *)
Lemma for_loop_total (Inv : Z → S → Prop) n : ∀ i s,
  Inv i s →
  (∀ k t, i <= k < i + Z.of_nat n → Inv k t →
          ∃ t', body t k = Some t' ∧ Inv (k + 1) t') →
  ∃ s', for_loop body i n s = Some s' ∧ Inv (i + Z.of_nat n) s'.
Proof.
  induction n as [|n IH]; intros i s Hi Hstep; simpl.
  - exists s. split; [done|]. by replace (i + Z.of_nat 0) with i by lia.
  - destruct (Hstep i s) as (t & -> & Ht); [lia|done|]. simpl.
    replace (i + Z.of_nat (Datatypes.S n)) with ((i + 1) + Z.of_nat n) by lia.
    apply IH; [done|]. intros k u Hk. apply Hstep. lia.
Qed.

End ForLoop.

(** ** Comparisons of doubles *)

Lemma SFcompare_refl (a : spec_float) : SFcompare a a = Some Eq ∨ SFcompare a a = None.
Proof.
  destruct a as [s|s| |s m e]; simpl; [by left| |by right|].
  - left. by destruct s.
  - left. destruct s; rewrite Z.compare_refl, Pos.compare_cont_refl; done.
Qed.

Lemma dlt_irrefl (a : double) : dlt a a = false.
Proof. unfold dlt, SFltb. by destruct (SFcompare_refl a) as [-> | ->]. Qed.

Lemma dmin_idem (a c : double) : dmin (dmin a c) c = dmin a c.
Proof.
  unfold dmin. destruct (dlt c a) eqn:E.
  - by rewrite dlt_irrefl.
  - by rewrite E.
Qed.

(** ** cvparticlestaterect.h: the supplementary bound *)

Section AdditionalBound.
Import Particle ParticleState.

Lemma cvmSet_same m r c v : cvmGet m r c = Some v → cvmSet m r c v = Some m.
Proof.
  unfold cvmGet, cvmSet. case_bool_decide as Hin; [|done]. intros Hv.
  rewrite bool_decide_eq_true_2.
  - rewrite list_insert_id by done. by destruct m.
  - split; [done|]. by eapply lookup_lt_Some.
Qed.

Lemma cvParticleStateGet_ext p q i :
  (∀ r, cvmGet (particles q) r i = cvmGet (particles p) r i) →
  cvParticleStateGet q i = cvParticleStateGet p i.
Proof. intros E. unfold cvParticleStateGet. by rewrite !E. Qed.

Lemma cvParticleStateGet_is_Some p i :
  particle_wf p → Particle.num_states p = ParticleState.num_states →
  0 <= i < num_particles p → is_Some (cvParticleStateGet p i).
Proof.
  intros (HN & Hrows & Hcols & Hwf & _) H5 Hi. unfold ParticleState.num_states in H5.
  unfold cvParticleStateGet.
  destruct (cvmGet_is_Some (particles p) 0 i) as [? ->]; [done | unfold in_mat; lia|].
  destruct (cvmGet_is_Some (particles p) 1 i) as [? ->]; [done | unfold in_mat; lia|].
  destruct (cvmGet_is_Some (particles p) 2 i) as [? ->]; [done | unfold in_mat; lia|].
  destruct (cvmGet_is_Some (particles p) 3 i) as [? ->]; [done | unfold in_mat; lia|].
  destruct (cvmGet_is_Some (particles p) 4 i) as [? ->]; [done | unfold in_mat; lia|].
  done.
Qed.

Lemma cvParticleStateGet_inv p i s :
  cvParticleStateGet p i = Some s →
  cvmGet (particles p) 0 i = Some (x s) ∧ cvmGet (particles p) 1 i = Some (y s) ∧
  cvmGet (particles p) 2 i = Some (width s) ∧ cvmGet (particles p) 3 i = Some (height s) ∧
  cvmGet (particles p) 4 i = Some (angle s).
Proof.
  unfold cvParticleStateGet. intros Hg.
  destruct (cvmGet (particles p) 0 i); simpl in Hg; [|done].
  destruct (cvmGet (particles p) 1 i); simpl in Hg; [|done].
  destruct (cvmGet (particles p) 2 i); simpl in Hg; [|done].
  destruct (cvmGet (particles p) 3 i); simpl in Hg; [|done].
  destruct (cvmGet (particles p) 4 i); simpl in Hg; [|done].
  by injection Hg as <-.
Qed.

(** One iteration rewrites the state of its own particle and nothing else. *)
Lemma additional_bound_body_spec imsize t np s :
  mat_wf (particles t) → cvParticleStateGet t np = Some s →
  ∃ t', additional_bound_body imsize t np = Some t' ∧
    cvParticleStateGet t' np = Some (bounded_state imsize s) ∧
    (∀ j, j ≠ np → cvParticleStateGet t' j = cvParticleStateGet t j) ∧
    rows (particles t') = rows (particles t) ∧ cols (particles t') = cols (particles t) ∧
    mat_wf (particles t') ∧ num_particles t' = num_particles t.
Proof.
  intros Hwf (Hx & Hy & Hw & Hh & Ha)%cvParticleStateGet_inv.
  unfold additional_bound_body. rewrite Hx, Hy, Hw, Hh. simpl.
  set (w' := dmin (width s) _). set (h' := dmin (height s) _).
  destruct (cvmSet_total (particles t) 2 np w') as (m2 & H2 & W2 & R2 & C2);
    [done | by eapply cvmGet_in_mat |].
  rewrite H2. simpl.
  destruct (cvmSet_total m2 3 np h') as (m3 & H3 & W3 & R3 & C3);
    [done | unfold in_mat; rewrite R2, C2; by eapply cvmGet_in_mat |].
  rewrite H3. simpl. eexists. split; [done|]. simpl.
  split; [|split; [|split; [|split; [|split]]]]; [| |congruence|congruence|done..].
  - unfold cvParticleStateGet. simpl.
    rewrite (cvmGet_cvmSet_ne _ _ _ _ _ 0 np H3), (cvmGet_cvmSet_ne _ _ _ _ _ 0 np H2), Hx
      by (intros [=]; lia).
    rewrite (cvmGet_cvmSet_ne _ _ _ _ _ 1 np H3), (cvmGet_cvmSet_ne _ _ _ _ _ 1 np H2), Hy
      by (intros [=]; lia).
    rewrite (cvmGet_cvmSet_ne _ _ _ _ _ 2 np H3), (cvmGet_cvmSet_eq _ _ _ _ _ H2)
      by (intros [=]; lia).
    rewrite (cvmGet_cvmSet_eq _ _ _ _ _ H3).
    rewrite (cvmGet_cvmSet_ne _ _ _ _ _ 4 np H3), (cvmGet_cvmSet_ne _ _ _ _ _ 4 np H2), Ha
      by (intros [=]; lia).
    done.
  - intros j Hj. apply cvParticleStateGet_ext. intros r. simpl.
    rewrite (cvmGet_cvmSet_ne _ _ _ _ _ r j H3), (cvmGet_cvmSet_ne _ _ _ _ _ r j H2)
      by (intros [=]; lia).
    done.
Qed.

(** On a state that already respects the bound, an iteration changes
    nothing at all. *)
Lemma additional_bound_body_fixed imsize t np s :
  cvParticleStateGet t np = Some s → bounded_state imsize s = s →
  additional_bound_body imsize t np = Some t.
Proof.
  intros (Hx & Hy & Hw & Hh & Ha)%cvParticleStateGet_inv Hfix.
  unfold additional_bound_body. rewrite Hx, Hy, Hw, Hh. simpl.
  unfold bounded_state in Hfix. destruct s as [sx sy sw sh sa]. simpl in *.
  injection Hfix as -> ->.
  rewrite (cvmSet_same _ _ _ _ Hw). simpl.
  rewrite (cvmSet_same _ _ _ _ Hh). simpl. by destruct t.
Qed.

Lemma bounded_state_idem imsize s :
  bounded_state imsize (bounded_state imsize s) = bounded_state imsize s.
Proof. unfold bounded_state. simpl. by rewrite !dmin_idem. Qed.

Lemma additional_bound_run p imsize :
  particle_wf p → Particle.num_states p = ParticleState.num_states →
  ∃ p', cvParticleStateAdditionalBound p imsize = Some p' ∧
        bounded_below imsize p (num_particles p) p'.
Proof.
  intros Hwf H5. pose proof Hwf as (HN & Hrows & Hcols & Hmwf & _).
  unfold cvParticleStateAdditionalBound.
  destruct (for_loop_total (additional_bound_body imsize) (bounded_below imsize p)
              (Z.to_nat (num_particles p)) 0 p) as (p' & Hrun & Hinv).
  - unfold bounded_below. split_and!; try done.
    intros j. by rewrite bool_decide_eq_false_2 by lia.
  - intros k t Hk (Rt & Ct & Wt & Nt & Ht).
    destruct (cvParticleStateGet_is_Some p k Hwf H5) as [s Hs]; [lia|].
    assert (cvParticleStateGet t k = Some s) as Hts.
    { rewrite Ht, bool_decide_eq_false_2 by lia. done. }
    destruct (additional_bound_body_spec imsize t k s Wt Hts)
      as (t' & Hb & Hk' & Hother & R' & C' & W' & N').
    exists t'. split; [done|]. unfold bounded_below. split_and!; try congruence.
    intros j. destruct (decide (j = k)) as [->|Hj].
    + rewrite Hk', bool_decide_eq_true_2 by lia. by rewrite Hs.
    + rewrite Hother, Ht by done. repeat case_bool_decide; (done || lia).
  - exists p'. split; [done|]. by rewrite Z.add_0_l, Z2Nat.id in Hinv.
Qed.

(** C3. On a well-formed five-state ensemble the supplementary bound
    returns, and the state of every particle [np] is its previous state
    with the width replaced by [min(width, imageWidth - x)] and the height
    by [min(height, imageHeight - y)], [x] and [y] being that particle's own
    values; in particular [x = 90], [width = 50] and [imageWidth = 100] end
    with width [10], and likewise for [y] and the height. *)
Theorem additional_bound_clamps (p : CvParticle) (imsize : Cv.CvSize) :
  particle_wf p → Particle.num_states p = ParticleState.num_states →
  ∃ p', cvParticleStateAdditionalBound p imsize = Some p' ∧
    ∀ np, 0 <= np < num_particles p →
      ∃ s s', cvParticleStateGet p np = Some s ∧ cvParticleStateGet p' np = Some s' ∧
        x s' = x s ∧ y s' = y s ∧ angle s' = angle s ∧
        width s' = dmin (width s) (dsub (double_of_int (Cv.width imsize)) (x s)) ∧
        height s' = dmin (height s) (dsub (double_of_int (Cv.height imsize)) (y s)) ∧
        (x s = double_of_int 90 → width s = double_of_int 50 → Cv.width imsize = 100 →
         width s' = double_of_int 10) ∧
        (y s = double_of_int 90 → height s = double_of_int 50 → Cv.height imsize = 100 →
         height s' = double_of_int 10).
Proof.
  intros Hwf H5.
  destruct (additional_bound_run p imsize Hwf H5) as (p' & Hrun & _ & _ & _ & _ & Hget).
  exists p'. split; [done|]. intros np Hnp.
  destruct (cvParticleStateGet_is_Some p np Hwf H5 Hnp) as [s Hs].
  exists s, (bounded_state imsize s).
  split; [done|]. split.
  { rewrite Hget, bool_decide_eq_true_2 by done. by rewrite Hs. }
  simpl. repeat split.
  - intros -> -> ->. by vm_compute.
  - intros -> -> ->. by vm_compute.
Qed.

(** C10. The supplementary bound is idempotent: on a well-formed
    five-state ensemble the first pass returns an ensemble on which a
    second pass with the same image size returns that very ensemble, state
    matrix included. *)
Theorem additional_bound_idempotent (p : CvParticle) (imsize : Cv.CvSize) :
  particle_wf p → Particle.num_states p = ParticleState.num_states →
  ∃ p', cvParticleStateAdditionalBound p imsize = Some p' ∧
        cvParticleStateAdditionalBound p' imsize = Some p'.
Proof.
  intros Hwf H5.
  destruct (additional_bound_run p imsize Hwf H5) as (p' & Hrun & _ & _ & _ & HN & Hget).
  exists p'. split; [done|].
  unfold cvParticleStateAdditionalBound.
  destruct (for_loop_total (additional_bound_body imsize) (λ _ t, t = p')
              (Z.to_nat (num_particles p')) 0 p') as (p'' & Hrun' & ->); [done| |done].
  intros k t Hk ->. exists p'. split; [|done].
  destruct (cvParticleStateGet_is_Some p k Hwf H5) as [s Hs]; [lia|].
  apply (additional_bound_body_fixed imsize p' k (bounded_state imsize s)).
  - rewrite Hget, bool_decide_eq_true_2 by lia. by rewrite Hs.
  - apply bounded_state_idem.
Qed.

End AdditionalBound.

(** ** Binary64 rounding *)

Section Binary64.

Lemma digits2_pos_size (p : positive) : digits2_pos p = Pos.size p.
Proof. induction p as [p IH|p IH|]; simpl; by rewrite ?IH. Qed.

(** The number of binary digits brackets the value. *)
Lemma Zdigits2_bounds (m : Z) :
  0 < m → 0 < Zdigits2 m ∧ 2 ^ (Zdigits2 m - 1) <= m < 2 ^ Zdigits2 m.
Proof.
  destruct m as [|p|p]; [lia| |lia]. intros _. simpl. rewrite digits2_pos_size.
  pose proof (Pos.size_gt p) as Hgt. pose proof (Pos.size_le p) as Hle.
  apply Pos2Z.pos_lt_pos in Hgt. apply Pos2Z.pos_le_pos in Hle.
  rewrite Pos2Z.inj_pow in Hgt, Hle. change (Z.pos p~0) with (2 * Z.pos p) in Hle.
  split; [lia|]. split; [|done].
  replace (2 ^ Z.pos (Pos.size p)) with (2 * 2 ^ (Z.pos (Pos.size p) - 1)) in Hle; [lia|].
  rewrite <- Z.pow_succ_r by lia. f_equal. lia.
Qed.

Lemma Zdigits2_unique (m k : Z) : 2 ^ (k - 1) <= m < 2 ^ k → 0 < m → Zdigits2 m = k.
Proof.
  intros [Hlo Hhi] Hm. destruct (Zdigits2_bounds m Hm) as (Hd & Hdlo & Hdhi).
  assert (0 < k).
  { destruct (Z.lt_trichotomy k 0) as [Hk|[->|Hk]]; [|simpl in Hhi; lia|done].
    rewrite Z.pow_neg_r in Hhi; lia. }
  assert (k - 1 < Zdigits2 m).
  { apply (Z.pow_lt_mono_r_iff 2); lia. }
  assert (Zdigits2 m - 1 < k).
  { apply (Z.pow_lt_mono_r_iff 2); lia. }
  lia.
Qed.

Lemma Zdigits2_mono (a b : Z) : 0 < a → a <= b → Zdigits2 a <= Zdigits2 b.
Proof.
  intros Ha Hab. destruct (Zdigits2_bounds a Ha) as (Hda & Halo & _).
  destruct (Zdigits2_bounds b) as (Hdb & _ & Hbhi); [lia|].
  assert (Zdigits2 a - 1 < Zdigits2 b); [|lia].
  apply (Z.pow_lt_mono_r_iff 2); lia.
Qed.

(** Dropping [n] low digits. *)
Lemma Zdigits2_div_pow2 (m n : Z) :
  0 < m → 0 <= n < Zdigits2 m →
  0 < m / 2 ^ n ∧ Zdigits2 (m / 2 ^ n) = Zdigits2 m - n.
Proof.
  intros Hm Hn. destruct (Zdigits2_bounds m Hm) as (Hd & Hlo & Hhi).
  assert (0 < 2 ^ n) by (apply Z.pow_pos_nonneg; lia).
  assert (2 ^ (Zdigits2 m - n - 1) <= m / 2 ^ n) as Hq.
  { apply Z.div_le_lower_bound; [done|].
    rewrite <- Z.pow_add_r by lia. by replace (n + (Zdigits2 m - n - 1)) with (Zdigits2 m - 1) by lia. }
  assert (0 < 2 ^ (Zdigits2 m - n - 1)) by (apply Z.pow_pos_nonneg; lia).
  split; [lia|]. apply Zdigits2_unique; [|lia]. split; [done|].
  apply Z.div_lt_upper_bound; [done|].
  rewrite <- Z.pow_add_r by lia. by replace (n + (Zdigits2 m - n)) with (Zdigits2 m) by lia.
Qed.

Lemma shr_1_m (mrs : shr_record) : 0 <= shr_m mrs → shr_m (shr_1 mrs) = shr_m mrs / 2.
Proof.
  destruct mrs as [m r s]. simpl. intros Hm. rewrite <- Z.div2_div.
  destruct m as [|[p|p|]|p]; simpl; (done || lia).
Qed.

Lemma iter_shr_1_m (p : positive) : ∀ mrs,
  0 <= shr_m mrs → shr_m (SpecFloat.iter_pos shr_1 p mrs) = shr_m mrs / 2 ^ Z.pos p.
Proof.
  assert (∀ a k, 0 <= a → 0 < k → 0 <= a / k) as Hnn.
  { intros. apply Z.div_pos; lia. }
  induction p as [p IH|p IH|]; intros mrs Hm; simpl.
  - assert (2 ^ Z.pos p~1 = 2 * 2 ^ Z.pos p * 2 ^ Z.pos p) as ->.
    { rewrite <- Z.pow_succ_r, <- Z.pow_add_r by lia. f_equal. lia. }
    assert (0 < 2 ^ Z.pos p) by (apply Z.pow_pos_nonneg; lia).
    assert (0 <= shr_m (shr_1 mrs)) by (rewrite shr_1_m by done; apply Hnn; lia).
    assert (0 <= shr_m (SpecFloat.iter_pos shr_1 p (shr_1 mrs)))
      by (rewrite IH by done; apply Hnn; lia).
    rewrite !IH, shr_1_m by done. rewrite !Z.div_div by lia. f_equal. lia.
  - assert (2 ^ Z.pos p~0 = 2 ^ Z.pos p * 2 ^ Z.pos p) as ->.
    { rewrite <- Z.pow_add_r by lia. f_equal. lia. }
    assert (0 < 2 ^ Z.pos p) by (apply Z.pow_pos_nonneg; lia).
    assert (0 <= shr_m (SpecFloat.iter_pos shr_1 p mrs))
      by (rewrite IH by done; apply Hnn; lia).
    rewrite !IH by done. rewrite Z.div_div by lia. f_equal.
  - by rewrite shr_1_m.
Qed.


Lemma fexp64 (e : Z) : fexp prec64 emax64 e = Z.max (e - 53) (-1074).
Proof. reflexivity. Qed.

Lemma shr_record_of_loc_m (m : Z) (l : location) : shr_m (shr_record_of_loc m l) = m.
Proof. by destruct l as [|[]]. Qed.

(** The right shift to the canonical exponent keeps a mantissa positive
    as long as the value is above the smallest subnormal. *)
Lemma shr_fexp_pos (m e : Z) (l : location) :
  0 < m → emin64 < Zdigits2 m + e →
  ∃ mrs' e', shr_fexp prec64 emax64 m e l = (mrs', e') ∧
    0 < shr_m mrs' ∧ Zdigits2 (shr_m mrs') + e' = Zdigits2 m + e ∧ emin64 <= e'.
Proof.
  unfold emin64. change (emin prec64 emax64) with (-1074).
  intros Hm Hd. unfold shr_fexp, shr. rewrite fexp64.
  destruct (Z.max (Zdigits2 m + e - 53) (-1074) - e) as [|n|n] eqn:En.
  - eexists _, _. split; [done|]. rewrite shr_record_of_loc_m. lia.
  - eexists _, _. split; [done|].
    rewrite iter_shr_1_m by (rewrite shr_record_of_loc_m; lia).
    rewrite shr_record_of_loc_m.
    destruct (Zdigits2_div_pow2 m (Z.pos n)) as [Hq Hdq]; [done|lia|]. lia.
  - eexists _, _. split; [done|]. rewrite shr_record_of_loc_m. lia.
Qed.

(** No shift happens when the exponent is already canonical. *)
Lemma shr_fexp_exact (m e : Z) (l : location) :
  fexp prec64 emax64 (Zdigits2 m + e) <= e →
  shr_fexp prec64 emax64 m e l = (shr_record_of_loc m l, e).
Proof.
  intros Hle. unfold shr_fexp, shr.
  destruct (fexp prec64 emax64 (Zdigits2 m + e) - e) eqn:En; (done || lia).
Qed.

Lemma round_nearest_even_bounds (m : Z) (l : location) :
  m <= round_nearest_even m l <= m + 1.
Proof. destruct l as [|[]]; simpl; try lia. destruct (Z.even m); lia. Qed.

Lemma binary_round_aux_pos (sx : bool) (m e : Z) (l : location) :
  0 < m → emin64 < Zdigits2 m + e →
  positive_result sx (binary_round_aux prec64 emax64 sx m e l).
Proof.
  intros Hm Hd. unfold binary_round_aux.
  destruct (shr_fexp_pos m e l Hm Hd) as (mrs' & e' & -> & Hm' & Hd' & He').
  pose proof (round_nearest_even_bounds (shr_m mrs') (loc_of_shr_record mrs')) as Hr.
  set (m2 := round_nearest_even (shr_m mrs') (loc_of_shr_record mrs')) in *.
  pose proof (Zdigits2_mono (shr_m mrs') m2 Hm' (proj1 Hr)) as Hmono.
  destruct (shr_fexp_pos m2 e' loc_Exact) as (mrs'' & e'' & -> & Hm'' & _ & He'');
    [lia..|].
  destruct (shr_m mrs'') as [|q|q]; [lia| |lia].
  destruct (e'' <=? emax64 - prec64); [right; eauto | by left].
Qed.

Lemma digits2_pos_iter_xO (mx d : positive) :
  Z.pos (digits2_pos (Pos.iter xO mx d)) = Z.pos (digits2_pos mx) + Z.pos d.
Proof.
  induction d as [|d IH] using Pos.peano_ind.
  - simpl. lia.
  - rewrite Pos.iter_succ. simpl. lia.
Qed.

Lemma shl_align_digits (mx : positive) (ex ex' : Z) :
  Z.pos (digits2_pos (shl_align mx ex ex').1) + (shl_align mx ex ex').2 =
  Z.pos (digits2_pos mx) + ex.
Proof.
  unfold shl_align. destruct (ex' - ex) as [|d|d] eqn:E; simpl; [done..|].
  rewrite digits2_pos_iter_xO. lia.
Qed.

Lemma binary_round_pos (sx : bool) (mx : positive) (ex : Z) :
  emin64 < Z.pos (digits2_pos mx) + ex →
  positive_result sx (binary_round prec64 emax64 sx mx ex).
Proof.
  intros Hd. unfold binary_round.
  pose proof (shl_align_digits mx ex (fexp prec64 emax64 (Z.pos (digits2_pos mx) + ex))) as E.
  destruct (shl_align mx ex _) as [mz ez]. simpl in E.
  apply binary_round_aux_pos; [done|]. simpl. lia.
Qed.

(** A positive integer converts to a positive double. *)
Lemma double_of_Z_pos (n : Z) : 0 < n → positive_result false (double_of_Z n).
Proof.
  destruct n as [|p|p]; [lia| |lia]. intros _.
  unfold double_of_Z, binary_normalize. apply binary_round_pos.
  unfold emin64. change (emin prec64 emax64) with (-1074). lia.
Qed.


Lemma dlt_zero_positive (sz : bool) (r : double) :
  positive_result false r → dlt (S754_zero sz) r = true.
Proof. by intros [->|(m & e & -> & _)]. Qed.


Lemma deq_zero_positive (sz : bool) (r : double) :
  positive_result false r → deq (S754_zero sz) r = false.
Proof. by intros [->|(m & e & -> & _)]. Qed.

(** Integers below [2^53] convert exactly: the mantissa is aligned to 53
    digits and the exponent is the number of digits minus 53. *)
Lemma double_of_int_exponent (n : Z) :
  0 < n < 2 ^ 53 →
  ∃ m, double_of_int n = S754_finite false m (Zdigits2 n - 53).
Proof.
  intros [Hpos Hlt]. destruct n as [|p|p]; [lia| |lia].
  destruct (Zdigits2_bounds (Z.pos p) Hpos) as (Hd & Hlo & _).
  assert (Zdigits2 (Z.pos p) <= 53) as Hd53.
  { assert (Zdigits2 (Z.pos p) - 1 < 53); [|lia].
    apply (Z.pow_lt_mono_r_iff 2); lia. }
  simpl in Hd, Hd53 |- *.
  unfold double_of_int, binary_normalize, binary_round.
  pose proof (shl_align_digits p 0 (fexp prec64 emax64 (Z.pos (digits2_pos p) + 0))) as E.
  assert ((shl_align p 0 (fexp prec64 emax64 (Z.pos (digits2_pos p) + 0))).2
          = Z.pos (digits2_pos p) - 53) as Ez.
  { unfold shl_align. rewrite fexp64.
    destruct (Z.max (Z.pos (digits2_pos p) + 0 - 53) (-1074) - 0) eqn:Ed; simpl; lia. }
  destruct (shl_align p 0 _) as [mz ez]. simpl in E, Ez. subst ez.
  unfold binary_round_aux.
  rewrite shr_fexp_exact by (rewrite fexp64; simpl; lia). simpl.
  rewrite shr_fexp_exact by (rewrite fexp64; simpl; lia). simpl.
  exists mz. destruct (_ <=? _) eqn:El; [done|]. apply Z.leb_gt in El.
  unfold emax64, prec64 in El. lia.
Qed.

End Binary64.

(** ** cvparticlestaterect.h: the configuration *)

Section Config.
Import Particle ParticleState.

Lemma int_sub_1 (w : Z) : 2 <= w <= INT_MAX → int_sub w 1 = w - 1.
Proof.
  unfold INT_MAX, int_sub, wrap_int. change (2 ^ 31) with 2147483648.
  change (2 ^ 32) with 4294967296. intros Hw. rewrite Z.mod_small; lia.
Qed.

(** Zero differs from every positive [int]. *)
Lemma deq_zero_of_int (n : Z) : 0 < n → deq (double_of_int 0) (double_of_int n) = false.
Proof. intros Hn. apply (deq_zero_positive false). by apply double_of_Z_pos. Qed.

(** One differs from every larger [int]. *)
Lemma deq_one_of_int (n : Z) : 2 <= n <= INT_MAX → deq (double_of_int 1) (double_of_int n) = false.
Proof.
  unfold INT_MAX. change (2 ^ 31) with 2147483648. intros Hn.
  destruct (double_of_int_exponent n) as [m ->].
  { change (2 ^ 53) with 9007199254740992. lia. }
  destruct (Zdigits2_bounds n) as (Hd0 & _ & Hhi); [lia|].
  assert (1 < Zdigits2 n) as Hd.
  { apply (Z.pow_lt_mono_r_iff 2); [lia..|]. change (2 ^ 1) with 2. lia. }
  change (double_of_int 1) with (S754_finite false 4503599627370496 (-52)).
  unfold deq, SFeqb, SFcompare.
  destruct (Z.compare_spec (-52) (Zdigits2 n - 53)) as [E|_|E]; [lia|done|lia].
Qed.

Lemma boundmat_row (p : CvParticle) (imsize : Cv.CvSize) (r : Z) :
  Particle.num_states p = ParticleState.num_states → 0 <= r < 5 →
  bound_row (boundmat p imsize) r =
  (λ i, (i.1.1, i.1.2, i.2)) <$> 
    ([ (double_of_int 0, double_of_int (int_sub (Cv.width imsize) 1), double_of_bool false);
       (double_of_int 0, double_of_int (int_sub (Cv.height imsize) 1), double_of_bool false);
       (double_of_int 1, double_of_int (Cv.width imsize), double_of_bool false);
       (double_of_int 1, double_of_int (Cv.height imsize), double_of_bool false);
       (double_of_int 0, double_of_int 360, double_of_bool true) ] !! Z.to_nat r).
Proof.
  intros H5 Hr. unfold bound_row, boundmat, cvMat, cvmGet, in_mat. simpl. rewrite H5.
  unfold ParticleState.num_states.
  rewrite !bool_decide_eq_true_2 by lia.
  assert (r = 0 ∨ r = 1 ∨ r = 2 ∨ r = 3 ∨ r = 4) as [->|[->|[->|[->| ->]]]] by lia;
    reflexivity.
Qed.

(** C4. For an image at least two pixels wide and high, the bound table
    that [cvParticleStateConfig] builds for a five-state ensemble, and hands
    to [cvParticleSetBound], is the 5x3 table with rows [x: {0, imageWidth-1, 0}], [y: {0, imageHeight-1, 0}],
    [width: {1, imageWidth, 0}], [height: {1, imageHeight, 0}] and
    [angle: {0, 360, 1}] (third entry: the circular flag), and no row has a
    lower bound equal to its upper bound. *)
Theorem config_bound_table (now : Z) (p : CvParticle) (imsize : Cv.CvSize)
    (std : CvParticleState) :
  Particle.num_states p = ParticleState.num_states →
  2 <= Cv.width imsize <= INT_MAX → 2 <= Cv.height imsize <= INT_MAX →
  let b := boundmat p imsize in
  bound (cvParticleStateConfig now p imsize std) = b ∧
  rows b = 5 ∧ cols b = 3 ∧
  bound_row b 0 =
    Some (double_of_int 0, double_of_int (Cv.width imsize - 1), double_of_bool false) ∧
  bound_row b 1 =
    Some (double_of_int 0, double_of_int (Cv.height imsize - 1), double_of_bool false) ∧
  bound_row b 2 =
    Some (double_of_int 1, double_of_int (Cv.width imsize), double_of_bool false) ∧
  bound_row b 3 =
    Some (double_of_int 1, double_of_int (Cv.height imsize), double_of_bool false) ∧
  bound_row b 4 = Some (double_of_int 0, double_of_int 360, double_of_bool true) ∧
  ∀ r, 0 <= r < 5 →
    ∃ lower upper circular,
      bound_row b r = Some (lower, upper, circular) ∧ deq lower upper = false.
Proof.
  intros H5 Hw Hh b. subst b.
  pose proof (boundmat_row p imsize) as Hrow.
  split; [done|]. split; [exact H5|]. split; [done|].
  rewrite !Hrow by (done || lia). simpl.
  rewrite !int_sub_1 by done.
  split_and!; try done.
  intros r Hr. rewrite Hrow by done.
  assert (r = 0 ∨ r = 1 ∨ r = 2 ∨ r = 3 ∨ r = 4) as [->|[->|[->|[->| ->]]]] by lia;
    simpl; eexists _, _, _; (split; [done|]); rewrite ?int_sub_1 by done.
  - apply deq_zero_of_int. lia.
  - apply deq_zero_of_int. lia.
  - by apply deq_one_of_int.
  - by apply deq_one_of_int.
  - by vm_compute.
Qed.

(** C5. The dynamics matrix that [cvParticleStateConfig] builds for a
    five-state ensemble, and hands to [cvParticleSetDynamics], is the 5x5
    matrix with 2 at every diagonal entry and 0 at every other entry: no
    state dimension is coupled to another. *)
Theorem config_dynamics_diagonal (now : Z) (p : CvParticle) (imsize : Cv.CvSize)
    (std : CvParticleState) :
  Particle.num_states p = ParticleState.num_states →
  let d := dynamicsmat p in
  Particle.dynamics (cvParticleStateConfig now p imsize std) = d ∧
  rows d = 5 ∧ cols d = 5 ∧
  ∀ i j, 0 <= i < 5 → 0 <= j < 5 →
    cvmGet d i j = Some (if bool_decide (i = j) then double_of_int 2 else double_of_int 0).
Proof.
  intros H5 d. subst d. split; [done|].
  unfold dynamicsmat, cvMat. simpl. rewrite H5. split; [done|]. split; [done|].
  intros i j Hi Hj. unfold cvmGet, in_mat. simpl. unfold ParticleState.num_states.
  rewrite bool_decide_eq_true_2 by lia.
  assert (i = 0 ∨ i = 1 ∨ i = 2 ∨ i = 3 ∨ i = 4) as [->|[->|[->|[->| ->]]]] by lia;
  assert (j = 0 ∨ j = 1 ∨ j = 2 ∨ j = 3 ∨ j = 4) as [->|[->|[->|[->| ->]]]] by lia;
  reflexivity.
Qed.

End Config.

(** ** cvparticleobservepcadiffs.h: loading the model *)

Section Initialize.
Import ObservePcaDiffs.
Context `{Collaborators}.

(** C6. [cvParticleObserveInitialize] ends the process (with status 1, and
    no other way out than returning) exactly when at least one of the three
    model files, eigenvalues, eigenvectors or mean, named by the configured
    directory and file names, fails to load; when all three load it returns
    with the three model matrices set to what was loaded and every other
    global as it was. *)
Theorem initialize_exits_iff_load_fails (g : Globals) :
  let pcaval := data_dir g +:+ data_pcaval g in
  let pcavec := data_dir g +:+ data_pcavec g in
  let pcaavg := data_dir g +:+ data_pcaavg g in
  ((∃ status cerr, cvParticleObserveInitialize g = Exited status cerr) ↔
   (cvLoad pcaval = None ∨ cvLoad pcavec = None ∨ cvLoad pcaavg = None)) ∧
  (∀ status cerr, cvParticleObserveInitialize g = Exited status cerr → status = 1) ∧
  (∀ val vec avg,
     cvLoad pcaval = Some val → cvLoad pcavec = Some vec → cvLoad pcaavg = Some avg →
     cvParticleObserveInitialize g =
       Returned (mkGlobals (num_observes g) (feature_size g) (data_dir g) (data_pcaval g)
                           (data_pcavec g) (data_pcaavg g) (Some val) (Some vec) (Some avg))) ∧
  (∀ g', cvParticleObserveInitialize g = Returned g' →
     is_Some (eigenvalues g') ∧ is_Some (eigenvectors g') ∧ is_Some (eigenavg g')).
Proof.
  intros pcaval pcavec pcaavg. unfold cvParticleObserveInitialize. simpl.
  fold pcaval pcavec pcaavg.
  destruct (cvLoad pcaval) as [val|] eqn:E1; simpl;
    [destruct (cvLoad pcavec) as [vec|] eqn:E2; simpl;
      [destruct (cvLoad pcaavg) as [avg|] eqn:E3; simpl|]|].
  - split_and!.
    + split; [by intros (? & ? & ?) | by intros [?|[?|?]]].
    + done.
    + by intros ??? [= <-] [= <-] [= <-].
    + intros g' [= <-]. simpl. eauto.
  - split_and!; [|by intros ?? [= <- _]|done..].
    split; [by right; right | eauto].
  - split_and!; [|by intros ?? [= <- _]|done..].
    split; [by right; left | eauto].
  - split_and!; [|by intros ?? [= <- _]|done..].
    split; [by left | eauto].
Qed.

End Initialize.

(** ** cvparticleobservetemplate.h: scoring *)

Section TemplateScoring.
Import Particle ObserveTemplate.
Context `{Collaborators}.





Lemma cvCreateImage_Some (size : Cv.CvSize) (depth channels : Z) :
  0 <= Cv.width size → 0 <= Cv.height size → depth ∈ ipl_depths → 0 <= channels →
  cvCreateImage size depth channels =
  Some (Ipl.mkIplImage (Cv.width size) (Cv.height size) depth channels
          (replicate (Z.to_nat (Cv.width size * Cv.height size * channels)) 0)).
Proof. intros. unfold cvCreateImage. by rewrite bool_decide_eq_true_2. Qed.

Lemma cvCreateImage_inv (size : Cv.CvSize) (depth channels : Z) img :
  cvCreateImage size depth channels = Some img →
  (0 <= Cv.width size ∧ 0 <= Cv.height size ∧ depth ∈ ipl_depths ∧ 0 <= channels) ∧
  img = Ipl.mkIplImage (Cv.width size) (Cv.height size) depth channels
          (replicate (Z.to_nat (Cv.width size * Cv.height size * channels)) 0).
Proof. unfold cvCreateImage. case_bool_decide; [|done]. by intros [= <-]. Qed.


Lemma cvNorm_inv (a b : Ipl.IplImage) (n : double) :
  cvNorm a b = Some n →
  n = SFsqrt prec64 emax64 (double_of_Z (sum_sq_diff (Ipl.imageData a) (Ipl.imageData b))).
Proof. unfold cvNorm. case_bool_decide; [|done]. by intros [= <-]. Qed.


(** One iteration, read backwards: when it returns, the patch could be
    allocated, the weight of particle [i] is the negated norm between the
    reference and the crop of the state's rectangle resampled to the size
    of [resize], and nothing but entry [(0, i)] of the weights and the
    content of [resize] has changed. *)
Lemma likelihood_body_inv (frame reference : Ipl.IplImage) q rz i q' rz' :
  likelihood_body frame reference (q, rz) i = Some (q', rz') →
  ∃ s, ParticleState.cvParticleStateGet q i = Some s ∧
    0 <= Cv.rwidth (state_rect s) ∧ 0 <= Cv.rheight (state_rect s) ∧
    rz' = with_data rz (resample (particle_patch frame s) (Ipl.width rz) (Ipl.height rz)) ∧
    cvmSet (probs q) 0 i (negated_norm (Ipl.imageData rz') (Ipl.imageData reference)) =
      Some (probs q') ∧
    set_probs q' (probs q) = q.
Proof.
  unfold likelihood_body. intros Hb.
  destruct (ParticleState.cvParticleStateGet q i) as [s|]; simpl in Hb; [|done].
  destruct (cvCreateImage _ _ _) as [patch|] eqn:Hpatch; simpl in Hb; [|done].
  apply cvCreateImage_inv in Hpatch as [(Hw & Hh & _ & _) ->]. simpl in Hw, Hh.
  destruct (cvNorm _ reference) as [norm|] eqn:Hnorm; simpl in Hb; [|done].
  apply cvNorm_inv in Hnorm as ->.
  destruct (cvmSet (probs q) 0 i _) as [m|] eqn:Hset; simpl in Hb; [|done].
  injection Hb as <- <-. exists s. split_and!; try done. by destruct q.
Qed.









End TemplateScoring.

(** ** cvparticleobservepcadiffs.h: feature extraction *)

Section Features.
Import Particle ObservePcaDiffs.
Context `{Collaborators}.

(** The buffer a patch is resized to, when it can be allocated, is as
    wide as the matrix is high. *)
Lemma preprocess_resize_buffer_size (patch : Ipl.IplImage) (mat : CvMat) buf :
  preprocess_resize_buffer patch mat = Some buf →
  Ipl.width buf = rows mat ∧ Ipl.height buf = cols mat.
Proof.
  unfold preprocess_resize_buffer. by intros [_ ->]%cvCreateImage_inv.
Qed.

Lemma preprocess_resize_buffer_Some (patch : Ipl.IplImage) (mat : CvMat) :
  0 <= rows mat → 0 <= cols mat → Ipl.depth patch ∈ ipl_depths →
  is_Some (preprocess_resize_buffer patch mat).
Proof.
  intros HR HC Hd. unfold preprocess_resize_buffer.
  rewrite cvCreateImage_Some by (done || lia). by eexists.
Qed.

Lemma icvPreprocess_nonsquare (patch : Ipl.IplImage) (mat : CvMat) :
  rows mat ≠ cols mat → icvPreprocess patch mat = None.
Proof.
  intros Hne. unfold icvPreprocess.
  destruct (if bool_decide (Ipl.nChannels patch ≠ 1) then _ else _) as [gry|];
    [|done].
  cbn [mbind option_bind].
  destruct (preprocess_resize_buffer patch mat) as [buf|] eqn:Hbuf; [|done].
  apply preprocess_resize_buffer_size in Hbuf as [Hw Hh].
  cbn [mbind option_bind]. unfold cvConvert. simpl.
  rewrite bool_decide_eq_false_2; [done|]. intros [E _]. congruence.
Qed.

Lemma get_features_body_nonsquare (fs : Cv.CvSize) (p : CvParticle)
    (frame : Ipl.IplImage) (st : features_state) (n : Z) :
  rows (normed st) ≠ cols (normed st) → get_features_body fs p frame st n = None.
Proof.
  intros Hne. unfold get_features_body.
  destruct (ParticleState.cvParticleStateGet p n) as [s|]; [|done].
  cbn [mbind option_bind].
  destruct (cvCreateImage _ _ _) as [patch|]; [|done].
  cbn [mbind option_bind]. by rewrite icvPreprocess_nonsquare.
Qed.

(** C8 on the code.  With a feature size [w x h], [icvGetFeatures] hands
    [icvPreprocess] the matrix [normed] of [h] rows and [w] columns, and the
    buffer the patch is resized to, which is allocated for every
    non-negative [w] and [h] and every patch of a known depth, is [h] wide
    and [w] high: width and height are exchanged with respect to the feature
    size.  When [w] and [h] differ, the conversion of that buffer into
    [normed] is refused and feature extraction fails as soon as there is one
    particle. *)
Theorem get_features_resize_exchanged (fs : Cv.CvSize) (p : CvParticle)
    (frame : Ipl.IplImage) (features : CvMat) :
  Cv.width fs ≠ Cv.height fs → 0 < num_particles p →
  (∀ patch,
     let normed := cvCreateMat (Cv.height fs) (Cv.width fs) in
     (0 <= Cv.width fs → 0 <= Cv.height fs → Ipl.depth patch ∈ ipl_depths →
      is_Some (preprocess_resize_buffer patch normed)) ∧
     ∀ buf, preprocess_resize_buffer patch normed = Some buf →
       Ipl.width buf = Cv.height fs ∧ Ipl.height buf = Cv.width fs) ∧
  icvGetFeatures fs p frame features = None.
Proof.
  intros Hne HN. split.
  { intros patch normed. split.
    - intros Hw Hh Hd. by apply preprocess_resize_buffer_Some.
    - intros buf Hbuf. by apply preprocess_resize_buffer_size in Hbuf. }
  unfold icvGetFeatures.
  destruct (Z.to_nat (num_particles p)) as [|n] eqn:En; [lia|]. cbn [for_loop].
  rewrite get_features_body_nonsquare; [done|]. simpl. congruence.
Qed.

End Features.

(** ** Transpose, reshape and column assignment *)

Section MatrixOps.





End MatrixOps.

(** ** cvparticleobservepcadiffs.h: square feature sizes *)

Section SquareFeatures.
Import Particle ObservePcaDiffs.
Context `{Collaborators}.







End SquareFeatures.

(** ** cvrectpoints.h: the affine branch *)

Section AffineBranch.
Import RectPoints.
Context `{Collaborators}.

(** With a shear, the corners are the images of the corners of the unit
    square, in the order [0 0; 1 0; 1 1; 0 1]. *)
Lemma cvRect32fPoints_affine_order rect shear pts :
  is_zero (Cv.x shear) && is_zero (Cv.y shear) = false →
  cvRect32fPoints rect shear = Some pts →
  length pts = 4%nat ∧
  ∀ k corner, unit_square !! k = Some corner →
    Some <$> pts !! k = Some (affine_apply (cvCreateAffine rect shear) corner).
Proof.
  unfold cvRect32fPoints. intros -> Hpts.
  apply mapM_Some in Hpts. split.
  - by rewrite <- (Forall2_length _ _ _ Hpts).
  - intros k corner Hk.
    destruct (Forall2_lookup_l _ _ _ _ _ Hpts Hk) as (pt & -> & ->). done.
Qed.

End AffineBranch.

(** ** The theorems at the example data *)

Section Witnesses.
Import Particle ParticleState.
#[local] Existing Instance Examples.collaborators.

Ltac concrete :=
  unfold particle_wf, mat_wf, ObserveTemplate.reference_fits, INT_MAX; simpl;
  repeat split; first [ reflexivity | lia | discriminate ].

Lemma state_set_get_roundtrip_witness :
  particle_wf Examples.ensemble ∧
  Particle.num_states Examples.ensemble = ParticleState.num_states ∧
  0 <= 1 < num_particles Examples.ensemble ∧
  ∃ p', cvParticleStateSet Examples.ensemble 1 Examples.state = Some p' ∧
        cvParticleStateGet p' 1 = Some Examples.state.
Proof.
  split; [concrete|]. split; [concrete|]. split; [concrete|].
  apply (state_set_get_roundtrip Examples.ensemble 1 Examples.state); concrete.
Defined.

Lemma additional_bound_clamps_witness :
  particle_wf Examples.ensemble ∧
  Particle.num_states Examples.ensemble = ParticleState.num_states ∧
  ∃ p', cvParticleStateAdditionalBound Examples.ensemble Examples.imsize = Some p' ∧
    ∀ np, 0 <= np < num_particles Examples.ensemble →
      ∃ s s', cvParticleStateGet Examples.ensemble np = Some s ∧
        cvParticleStateGet p' np = Some s' ∧
        x s' = x s ∧ y s' = y s ∧ angle s' = angle s ∧
        width s' = dmin (width s) (dsub (double_of_int (Cv.width Examples.imsize)) (x s)) ∧
        height s' = dmin (height s) (dsub (double_of_int (Cv.height Examples.imsize)) (y s)) ∧
        (x s = double_of_int 90 → width s = double_of_int 50 →
         Cv.width Examples.imsize = 100 → width s' = double_of_int 10) ∧
        (y s = double_of_int 90 → height s = double_of_int 50 →
         Cv.height Examples.imsize = 100 → height s' = double_of_int 10).
Proof.
  split; [concrete|]. split; [concrete|].
  apply (additional_bound_clamps Examples.ensemble Examples.imsize); concrete.
Defined.

Lemma additional_bound_idempotent_witness :
  particle_wf Examples.ensemble ∧
  Particle.num_states Examples.ensemble = ParticleState.num_states ∧
  ∃ p', cvParticleStateAdditionalBound Examples.ensemble Examples.imsize = Some p' ∧
        cvParticleStateAdditionalBound p' Examples.imsize = Some p'.
Proof.
  split; [concrete|]. split; [concrete|].
  apply (additional_bound_idempotent Examples.ensemble Examples.imsize); concrete.
Defined.

Lemma config_bound_table_witness :
  Particle.num_states Examples.ensemble = ParticleState.num_states ∧
  2 <= Cv.width Examples.imsize <= INT_MAX ∧ 2 <= Cv.height Examples.imsize <= INT_MAX ∧
  ∀ r, 0 <= r < 5 →
    ∃ lower upper circular,
      bound_row (boundmat Examples.ensemble Examples.imsize) r
        = Some (lower, upper, circular) ∧
      deq lower upper = false.
Proof.
  split; [concrete|]. split; [concrete|]. split; [concrete|].
  apply (config_bound_table 1225497600 Examples.ensemble Examples.imsize Examples.state);
    concrete.
Defined.

Lemma config_dynamics_diagonal_witness :
  Particle.num_states Examples.ensemble = ParticleState.num_states ∧
  Particle.dynamics (cvParticleStateConfig 1225497600 Examples.ensemble
                       Examples.imsize Examples.state)
  = dynamicsmat Examples.ensemble ∧
  cvmGet (dynamicsmat Examples.ensemble) 3 3 = Some (double_of_int 2) ∧
  cvmGet (dynamicsmat Examples.ensemble) 3 4 = Some (double_of_int 0).
Proof.
  split; [concrete|].
  destruct (config_dynamics_diagonal 1225497600 Examples.ensemble Examples.imsize
              Examples.state) as (Hstored & _ & _ & Hentries); [concrete|].
  split; [exact Hstored|]. split.
  - apply (Hentries 3 3); concrete.
  - apply (Hentries 3 4); concrete.
Defined.





Lemma get_features_resize_exchanged_witness :
  Cv.width Examples.wide_feature_size ≠ Cv.height Examples.wide_feature_size ∧
  0 < num_particles Examples.ensemble ∧
  ObservePcaDiffs.icvGetFeatures Examples.wide_feature_size Examples.ensemble
    Examples.frame (cvCreateMat (24 * 12) 2) = None.
Proof.
  split; [concrete|]. split; [concrete|].
  apply (get_features_resize_exchanged Examples.wide_feature_size Examples.ensemble
           Examples.frame (cvCreateMat (24 * 12) 2)); concrete.
Defined.


End Witnesses.

(** * Further properties *)

(** ** cvparticlestaterect.h: more on the accessors *)

Section MoreAccessors.
Import Particle ParticleState.

(** Two well-formed matrices of the same size with the same elements are
    the same matrix. *)
Lemma mat_ext (m m' : CvMat) :
  mat_wf m → mat_wf m' → rows m = rows m' → cols m = cols m' →
  (∀ r c, in_mat m r c → cvmGet m r c = cvmGet m' r c) → m = m'.
Proof.
  destruct m as [R C d], m' as [R' C' d']. unfold mat_wf, in_mat. simpl.
  intros (HR & HC & Hl) (_ & _ & Hl') <- <- Hget. f_equal.
  apply list_eq. intros k.
  destruct (decide (k < length d)%nat) as [Hk|Hk].
  - assert (0 < C) as HCpos.
    { destruct (decide (C = 0)) as [->|]; [|lia]. rewrite Z.mul_0_r in Hl. simpl in Hl. lia. }
    assert (Z.of_nat k < R * C) as HkRC by lia.
    pose proof (Z.div_mod (Z.of_nat k) C ltac:(lia)) as Hdm.
    pose proof (Z.mod_pos_bound (Z.of_nat k) C HCpos) as Hmod.
    assert (0 <= Z.of_nat k `div` C < R) as Hdiv.
    { split; [apply Z.div_pos; lia|]. apply Z.div_lt_upper_bound; lia. }
    specialize (Hget (Z.of_nat k `div` C) (Z.of_nat k `mod` C) (conj Hdiv Hmod)).
    unfold cvmGet, in_mat, mat_index in Hget. simpl in Hget.
    rewrite !bool_decide_eq_true_2 in Hget by done.
    replace (Z.to_nat (Z.of_nat k `div` C * C + Z.of_nat k `mod` C)) with k in Hget by lia.
    done.
  - rewrite !lookup_ge_None_2 by lia. done.
Qed.

(** Every element of the state matrix after a successful set. *)
Lemma cvParticleStateSet_elements p i s p' :
  cvParticleStateSet p i s = Some p' →
  set_particles p' (particles p) = p ∧
  in_mat (particles p) 4 i ∧
  cvmGet (particles p') 0 i = Some (x s) ∧ cvmGet (particles p') 1 i = Some (y s) ∧
  cvmGet (particles p') 2 i = Some (width s) ∧ cvmGet (particles p') 3 i = Some (height s) ∧
  cvmGet (particles p') 4 i = Some (angle s) ∧
  ∀ r j, ¬ (j = i ∧ 0 <= r < 5) → cvmGet (particles p') r j = cvmGet (particles p) r j.
Proof.
  intros Hset. pose proof (cvParticleStateSet_inv p i s p' Hset) as (Hget & _).
  apply cvParticleStateGet_inv in Hget as (Hx & Hy & Hw & Hh & Ha).
  unfold cvParticleStateSet in Hset.
  destruct (cvmSet (particles p) 0 i (x s)) as [m0|] eqn:H0; simpl in Hset; [|done].
  destruct (cvmSet m0 1 i (y s)) as [m1|] eqn:H1; simpl in Hset; [|done].
  destruct (cvmSet m1 2 i (width s)) as [m2|] eqn:H2; simpl in Hset; [|done].
  destruct (cvmSet m2 3 i (height s)) as [m3|] eqn:H3; simpl in Hset; [|done].
  destruct (cvmSet m3 4 i (angle s)) as [m4|] eqn:H4; simpl in Hset; [|done].
  injection Hset as <-. simpl in *. split_and!; try done.
  - by destruct p.
  - apply cvmSet_inv in H4 as (Hin & _). unfold in_mat in *.
    rewrite (cvmSet_rows _ _ _ _ _ H3), (cvmSet_rows _ _ _ _ _ H2),
      (cvmSet_rows _ _ _ _ _ H1), (cvmSet_rows _ _ _ _ _ H0) in Hin.
    rewrite (cvmSet_cols _ _ _ _ _ H3), (cvmSet_cols _ _ _ _ _ H2),
      (cvmSet_cols _ _ _ _ _ H1), (cvmSet_cols _ _ _ _ _ H0) in Hin. done.
  - intros r j Hrj.
    rewrite (cvmGet_cvmSet_ne _ _ _ _ _ r j H4) by (intros [=]; lia).
    rewrite (cvmGet_cvmSet_ne _ _ _ _ _ r j H3) by (intros [=]; lia).
    rewrite (cvmGet_cvmSet_ne _ _ _ _ _ r j H2) by (intros [=]; lia).
    rewrite (cvmGet_cvmSet_ne _ _ _ _ _ r j H1) by (intros [=]; lia).
    by rewrite (cvmGet_cvmSet_ne _ _ _ _ _ r j H0) by (intros [=]; lia).
Qed.

(** A set succeeds as soon as column [i] has its five rows. *)
Lemma cvParticleStateSet_in_mat p i s :
  mat_wf (particles p) → in_mat (particles p) 4 i → is_Some (cvParticleStateSet p i s).
Proof.
  intros Hwf [Hr Hc]. unfold cvParticleStateSet.
  destruct (cvmSet_total (particles p) 0 i (x s)) as (m0 & -> & W0 & R0 & C0);
    [done | unfold in_mat; lia |]; simpl.
  destruct (cvmSet_total m0 1 i (y s)) as (m1 & -> & W1 & R1 & C1);
    [done | unfold in_mat; lia |]; simpl.
  destruct (cvmSet_total m1 2 i (width s)) as (m2 & -> & W2 & R2 & C2);
    [done | unfold in_mat; lia |]; simpl.
  destruct (cvmSet_total m2 3 i (height s)) as (m3 & -> & W3 & R3 & C3);
    [done | unfold in_mat; lia |]; simpl.
  destruct (cvmSet_total m3 4 i (angle s)) as (m4 & -> & W4 & R4 & C4);
    [done | unfold in_mat; lia |]; simpl.
  done.
Qed.

(** Two ensembles that agree outside the state matrix, and whose state
    matrices agree element by element, are equal. *)
Lemma particle_ext p q :
  set_particles p (particles q) = q →
  mat_wf (particles p) → mat_wf (particles q) →
  rows (particles p) = rows (particles q) → cols (particles p) = cols (particles q) →
  (∀ r c, cvmGet (particles p) r c = cvmGet (particles q) r c) → p = q.
Proof.
  intros Hsame Wp Wq HR HC Hget. rewrite <- Hsame. 
  rewrite <- (mat_ext (particles p) (particles q)) by auto. by destruct p.
Qed.

Lemma same_fields_sym p q :
  set_particles p (particles q) = q → set_particles q (particles p) = p.
Proof. destruct p, q. simpl. intros [= <- <- <- <- <- <- <-]. done. Qed.

Lemma same_fields_trans p q r :
  set_particles p (particles q) = q → set_particles q (particles r) = r →
  set_particles p (particles r) = r.
Proof.
  destruct p, q, r. simpl. intros [= <- <- <- <- <- <- <-] [= <- <- <- <- <- <- <-]. done.
Qed.

(** X1. A successful [cvParticleStateSet] at index [i] changes the state
    of no other particle, keeps the size of the state matrix, and leaves
    every other field of the ensemble (the weights among them) as it was. *)
Theorem state_set_frame (p : CvParticle) (i : Z) (s : CvParticleState) (p' : CvParticle) :
  cvParticleStateSet p i s = Some p' →
  (∀ j, j ≠ i → cvParticleStateGet p' j = cvParticleStateGet p j) ∧
  rows (particles p') = rows (particles p) ∧ cols (particles p') = cols (particles p) ∧
  probs p' = probs p ∧ set_particles p' (particles p) = p.
Proof.
  intros Hset.
  destruct (cvParticleStateSet_inv p i s p' Hset) as (_ & Hother & HR & HC & _ & Hp & _).
  destruct (cvParticleStateSet_elements p i s p' Hset) as (Hsame & _).
  split_and!; try done.
  intros j Hj. apply cvParticleStateGet_ext. intros r. by apply Hother.
Qed.

(** X2. Writing back the state that was just read changes nothing:
    if [cvParticleStateGet] returns [s] at index [i], then
    [cvParticleStateSet] of [s] at [i] returns the same ensemble. *)
Theorem state_get_set_identity (p : CvParticle) (i : Z) (s : CvParticleState) :
  cvParticleStateGet p i = Some s → cvParticleStateSet p i s = Some p.
Proof.
  intros (Hx & Hy & Hw & Hh & Ha)%cvParticleStateGet_inv. unfold cvParticleStateSet.
  rewrite (cvmSet_same _ _ _ _ Hx). cbn [mbind option_bind].
  rewrite (cvmSet_same _ _ _ _ Hy). cbn [mbind option_bind].
  rewrite (cvmSet_same _ _ _ _ Hw). cbn [mbind option_bind].
  rewrite (cvmSet_same _ _ _ _ Hh). cbn [mbind option_bind].
  rewrite (cvmSet_same _ _ _ _ Ha). cbn [mbind option_bind].
  by destruct p.
Qed.

(** X3. The last write wins: setting [s1] and then [s2] at the same index
    of an ensemble with a well-formed state matrix gives the same ensemble
    as setting [s2] alone. *)
Theorem state_set_set (p : CvParticle) (i : Z) (s1 s2 : CvParticleState) (p1 : CvParticle) :
  mat_wf (particles p) →
  cvParticleStateSet p i s1 = Some p1 →
  cvParticleStateSet p1 i s2 = cvParticleStateSet p i s2.
Proof.
  intros Hwf H1.
  destruct (cvParticleStateSet_inv p i s1 p1 H1) as (_ & _ & HR1 & HC1 & W1 & _).
  destruct (cvParticleStateSet_elements p i s1 p1 H1) as (F1 & Hin & _ & _ & _ & _ & _ & O1).
  destruct (cvParticleStateSet_in_mat p i s2 Hwf Hin) as [q' Hq'].
  destruct (cvParticleStateSet_in_mat p1 i s2) as [q Hq];
    [by apply W1 | unfold in_mat in *; by rewrite HR1, HC1 |].
  rewrite Hq, Hq'. f_equal.
  destruct (cvParticleStateSet_inv p i s2 q' Hq') as (_ & _ & HRq' & HCq' & Wq' & _).
  destruct (cvParticleStateSet_inv p1 i s2 q Hq) as (_ & _ & HRq & HCq & Wq & _).
  destruct (cvParticleStateSet_elements p i s2 q' Hq')
    as (Fq' & _ & Xq' & Yq' & Wdq' & Hgq' & Aq' & Oq').
  destruct (cvParticleStateSet_elements p1 i s2 q Hq)
    as (Fq & _ & Xq & Yq & Wdq & Hgq & Aq & Oq).
  apply particle_ext; try (by auto); try congruence.
  - apply (same_fields_trans q p1 q' Fq). apply (same_fields_trans p1 p q' F1).
    by apply same_fields_sym.
  - intros r c. destruct (decide (c = i ∧ 0 <= r < 5)) as [[-> Hr]|Hno].
    + assert (r = 0 ∨ r = 1 ∨ r = 2 ∨ r = 3 ∨ r = 4) as [->|[->|[->|[->| ->]]]] by lia;
        congruence.
    + rewrite Oq, Oq', O1 by done. done.
Qed.

(** X4. Sets at two different indices commute: on an ensemble with a
    well-formed state matrix, setting [s] at [i] and then [t] at [j], with
    [i] different from [j], gives the same ensemble as setting [t] at [j]
    first and [s] at [i] second. *)
Theorem state_set_commute (p : CvParticle) (i j : Z) (s t : CvParticleState)
    (p1 p2 : CvParticle) :
  mat_wf (particles p) → i ≠ j →
  cvParticleStateSet p i s = Some p1 → cvParticleStateSet p1 j t = Some p2 →
  ∃ q1, cvParticleStateSet p j t = Some q1 ∧ cvParticleStateSet q1 i s = Some p2.
Proof.
  intros Hwf Hij H1 H2.
  destruct (cvParticleStateSet_inv p i s p1 H1) as (_ & _ & HR1 & HC1 & W1 & _).
  destruct (cvParticleStateSet_inv p1 j t p2 H2) as (_ & _ & HR2 & HC2 & W2 & _).
  destruct (cvParticleStateSet_elements p i s p1 H1)
    as (F1 & Hin1 & X1 & Y1 & Wd1 & Hg1 & A1 & O1).
  destruct (cvParticleStateSet_elements p1 j t p2 H2)
    as (F2 & Hin2 & X2 & Y2 & Wd2 & Hg2 & A2 & O2).
  destruct (cvParticleStateSet_in_mat p j t Hwf) as [q1 Hq1];
    [unfold in_mat in *; by rewrite <- HR1, <- HC1 |].
  destruct (cvParticleStateSet_inv p j t q1 Hq1) as (_ & _ & HRq1 & HCq1 & Wq1 & _).
  destruct (cvParticleStateSet_elements p j t q1 Hq1)
    as (Fq1 & _ & Xq1 & Yq1 & Wdq1 & Hgq1 & Aq1 & Oq1).
  destruct (cvParticleStateSet_in_mat q1 i s) as [q2 Hq2];
    [by apply Wq1 | unfold in_mat in *; by rewrite HRq1, HCq1 |].
  destruct (cvParticleStateSet_inv q1 i s q2 Hq2) as (_ & _ & HRq2 & HCq2 & Wq2 & _).
  destruct (cvParticleStateSet_elements q1 i s q2 Hq2)
    as (Fq2 & _ & Xq2 & Yq2 & Wdq2 & Hgq2 & Aq2 & Oq2).
  exists q1. split; [done|]. rewrite Hq2. f_equal.
  apply particle_ext; try (by auto); try congruence.
  - apply (same_fields_trans q2 q1 p2 Fq2). apply (same_fields_trans q1 p p2 Fq1).
    apply same_fields_sym. by apply (same_fields_trans p2 p1 p F2).
  - intros r c. destruct (decide (c = i ∧ 0 <= r < 5)) as [[-> Hr]|Hnoi].
    + rewrite (O2 r i) by lia.
      assert (r = 0 ∨ r = 1 ∨ r = 2 ∨ r = 3 ∨ r = 4) as [->|[->|[->|[->| ->]]]] by lia;
        congruence.
    + rewrite (Oq2 r c) by done.
      destruct (decide (c = j ∧ 0 <= r < 5)) as [[-> Hr]|Hnoj].
      * assert (r = 0 ∨ r = 1 ∨ r = 2 ∨ r = 3 ∨ r = 4) as [->|[->|[->|[->| ->]]]] by lia;
          congruence.
      * rewrite Oq1, O2, O1 by done. done.
Qed.

End MoreAccessors.

(** ** More on the comparison of doubles *)

Section MoreComparisons.

Lemma SFcompare_antisym (a b : spec_float) :
  SFcompare b a = CompOpp <$> SFcompare a b.
Proof.
  destruct a as [sa|sa| |sa ma ea], b as [sb|sb| |sb mb eb]; simpl;
    try done; try (by destruct sa); try (by destruct sb); try (by destruct sa, sb).
  f_equal. destruct sa, sb; try done.
  - rewrite (Z.compare_antisym ea eb). destruct (ea ?= eb); simpl; try done.
    rewrite (Pos.compare_cont_antisym ma mb Eq). done.
  - rewrite (Z.compare_antisym ea eb). destruct (ea ?= eb); simpl; try done.
    rewrite (Pos.compare_cont_antisym ma mb Eq). done.
Qed.

Lemma dlt_asym (a b : double) : dlt a b = true → dlt b a = false.
Proof.
  unfold dlt, SFltb. rewrite (SFcompare_antisym a b).
  by destruct (SFcompare a b) as [[]|].
Qed.

(** [std::min] returns a value above neither of its arguments. *)
Lemma dmin_not_above (a b : double) : dlt a (dmin a b) = false ∧ dlt b (dmin a b) = false.
Proof.
  unfold dmin. destruct (dlt b a) eqn:E.
  - split; [by apply dlt_asym | apply dlt_irrefl].
  - split; [apply dlt_irrefl | done].
Qed.

Lemma dmin_fits (a b : double) : dlt b a = false → dmin a b = a.
Proof. unfold dmin. by intros ->. Qed.

End MoreComparisons.

(** ** cvparticlestaterect.h: more on the supplementary bound *)

Section MoreAdditionalBound.
Import Particle ParticleState.

(** X5. After the supplementary bound no particle is wider than
    [imageWidth - x] or higher than [imageHeight - y], and no particle has
    grown: on a well-formed five-state ensemble the pass returns, and for
    every particle none of the comparisons [imageWidth - x < width'],
    [imageHeight - y < height'], [width < width'], [height < height'] holds
    between the old state and the new one. *)
Theorem additional_bound_respects_bound (p : CvParticle) (imsize : Cv.CvSize) :
  particle_wf p → Particle.num_states p = ParticleState.num_states →
  ∃ p', cvParticleStateAdditionalBound p imsize = Some p' ∧
    ∀ np, 0 <= np < num_particles p →
      ∃ s s', cvParticleStateGet p np = Some s ∧ cvParticleStateGet p' np = Some s' ∧
        dlt (dsub (double_of_int (Cv.width imsize)) (x s')) (width s') = false ∧
        dlt (dsub (double_of_int (Cv.height imsize)) (y s')) (height s') = false ∧
        dlt (width s) (width s') = false ∧ dlt (height s) (height s') = false.
Proof.
  intros Hwf H5.
  destruct (additional_bound_run p imsize Hwf H5) as (p' & Hrun & _ & _ & _ & _ & Hget).
  exists p'. split; [done|]. intros np Hnp.
  destruct (cvParticleStateGet_is_Some p np Hwf H5 Hnp) as [s Hs].
  exists s, (bounded_state imsize s). split; [done|]. split.
  { rewrite Hget, bool_decide_eq_true_2 by done. by rewrite Hs. }
  simpl.
  destruct (dmin_not_above (width s) (dsub (double_of_int (Cv.width imsize)) (x s))).
  destruct (dmin_not_above (height s) (dsub (double_of_int (Cv.height imsize)) (y s))).
  done.
Qed.

(** X6. An ensemble that already respects the bound is returned as it
    is: when for no particle [imageWidth - x < width] or
    [imageHeight - y < height] holds, the pass returns the very ensemble it
    was given (in particular an ensemble without particles). *)
Theorem additional_bound_unchanged_when_fits (p : CvParticle) (imsize : Cv.CvSize) :
  particle_wf p → Particle.num_states p = ParticleState.num_states →
  (∀ np s, 0 <= np < num_particles p → cvParticleStateGet p np = Some s →
     dlt (dsub (double_of_int (Cv.width imsize)) (x s)) (width s) = false ∧
     dlt (dsub (double_of_int (Cv.height imsize)) (y s)) (height s) = false) →
  cvParticleStateAdditionalBound p imsize = Some p.
Proof.
  intros Hwf H5 Hfits. unfold cvParticleStateAdditionalBound.
  destruct (for_loop_total (additional_bound_body imsize) (λ _ t, t = p)
              (Z.to_nat (num_particles p)) 0 p) as (p' & Hrun & ->); [done| |done].
  intros k t Hk ->. exists p. split; [|done].
  destruct (cvParticleStateGet_is_Some p k Hwf H5) as [s Hs]; [lia|].
  apply (additional_bound_body_fixed imsize p k s Hs).
  destruct (Hfits k s) as [Hw Hh]; [lia|done|].
  unfold bounded_state. rewrite (dmin_fits _ _ Hw), (dmin_fits _ _ Hh). by destruct s.
Qed.

(** What one iteration can touch, whatever the ensemble. *)
Lemma additional_bound_body_frame imsize t np t' :
  additional_bound_body imsize t np = Some t' →
  set_particles t' (particles t) = t ∧
  rows (particles t') = rows (particles t) ∧ cols (particles t') = cols (particles t) ∧
  ∀ r j, (r, j) ≠ (2, np) → (r, j) ≠ (3, np) →
    cvmGet (particles t') r j = cvmGet (particles t) r j.
Proof.
  unfold additional_bound_body. intros Hb.
  destruct (cvmGet (particles t) 0 np) as [vx|]; simpl in Hb; [|done].
  destruct (cvmGet (particles t) 1 np) as [vy|]; simpl in Hb; [|done].
  destruct (cvmGet (particles t) 2 np) as [vw|]; simpl in Hb; [|done].
  destruct (cvmGet (particles t) 3 np) as [vh|]; simpl in Hb; [|done].
  destruct (cvmSet (particles t) 2 np _) as [m2|] eqn:H2; simpl in Hb; [|done].
  destruct (cvmSet m2 3 np _) as [m3|] eqn:H3; simpl in Hb; [|done].
  injection Hb as <-. simpl. split_and!.
  - by destruct t.
  - by rewrite (cvmSet_rows _ _ _ _ _ H3), (cvmSet_rows _ _ _ _ _ H2).
  - by rewrite (cvmSet_cols _ _ _ _ _ H3), (cvmSet_cols _ _ _ _ _ H2).
  - intros r j Hn2 Hn3.
    by rewrite (cvmGet_cvmSet_ne _ _ _ _ _ r j H3), (cvmGet_cvmSet_ne _ _ _ _ _ r j H2).
Qed.

(** X7. Whenever the supplementary bound returns, it has changed nothing
    but rows 2 and 3 (width and height) of the columns of the particles
    [0 <= j < num_particles] of the state matrix: every other element of
    that matrix, its size, the weights and all other fields are as before. *)
Theorem additional_bound_frame (p : CvParticle) (imsize : Cv.CvSize) (p' : CvParticle) :
  cvParticleStateAdditionalBound p imsize = Some p' →
  set_particles p' (particles p) = p ∧ probs p' = probs p ∧
  rows (particles p') = rows (particles p) ∧ cols (particles p') = cols (particles p) ∧
  ∀ r j, ¬ ((r = 2 ∨ r = 3) ∧ 0 <= j < num_particles p) →
    cvmGet (particles p') r j = cvmGet (particles p) r j.
Proof.
  unfold cvParticleStateAdditionalBound. intros Hrun.
  pose proof (for_loop_invariant (additional_bound_body imsize)
    (λ k t, set_particles t (particles p) = p ∧
            rows (particles t) = rows (particles p) ∧
            cols (particles t) = cols (particles p) ∧
            ∀ r j, ¬ ((r = 2 ∨ r = 3) ∧ 0 <= j < k) →
              cvmGet (particles t) r j = cvmGet (particles p) r j)
    (Z.to_nat (num_particles p)) 0 p p') as Hinv.
  destruct Hinv as (Hsame & HR & HC & Hother); [| |done|].
  - split_and!; try done. by destruct p.
  - intros k t t' Hk (Hs & HRt & HCt & Ho) Hb.
    destruct (additional_bound_body_frame imsize t k t' Hb) as (Hs' & HR' & HC' & Ho').
    split_and!; try congruence.
    + by apply (same_fields_trans t' t p).
    + intros r j Hrj. rewrite Ho' by (intros [=]; lia). apply Ho. lia.
  - split_and!; try done.
    + rewrite <- Hsame. by destruct p'.
    + intros r j Hrj. apply Hother. lia.
Qed.

End MoreAdditionalBound.

(** ** cvparticleobservepcadiffs.h: the life cycle of the model *)

Section MoreLifecycle.
Import ObservePcaDiffs.
Context `{Collaborators}.

(** X8. The message written before [exit( 1 )] names the first file, in
    the order eigenvalues, eigenvectors, mean, that fails to load: the later
    files are not reported even when they are missing too. *)
Theorem initialize_reports_first_failure (g : Globals) :
  let pcaval := data_dir g +:+ data_pcaval g in
  let pcavec := data_dir g +:+ data_pcavec g in
  let pcaavg := data_dir g +:+ data_pcaavg g in
  (cvLoad pcaval = None →
     cvParticleObserveInitialize g = Exited 1 (not_loadable pcaval)) ∧
  (is_Some (cvLoad pcaval) → cvLoad pcavec = None →
     cvParticleObserveInitialize g = Exited 1 (not_loadable pcavec)) ∧
  (is_Some (cvLoad pcaval) → is_Some (cvLoad pcavec) → cvLoad pcaavg = None →
     cvParticleObserveInitialize g = Exited 1 (not_loadable pcaavg)).
Proof.
  intros pcaval pcavec pcaavg. unfold cvParticleObserveInitialize. simpl.
  fold pcaval pcavec pcaavg. split_and!.
  - by intros ->.
  - intros [? ->] ->. done.
  - intros [? ->] [? ->] ->. done.
Qed.

(** X9. The model can be released and loaded again: finalization unsets
    the three matrices and keeps the configuration, a second finalization
    changes nothing, initialization does not depend on what the three
    matrices were before, and initializing again with the same files
    returns the same globals. *)
Theorem observe_lifecycle (g : Globals) :
  eigenvalues (cvParticleObserveFinalize g) = None ∧
  eigenvectors (cvParticleObserveFinalize g) = None ∧
  eigenavg (cvParticleObserveFinalize g) = None ∧
  set_eigenavg (set_eigenvectors (set_eigenvalues (cvParticleObserveFinalize g)
    (eigenvalues g)) (eigenvectors g)) (eigenavg g) = g ∧
  cvParticleObserveFinalize (cvParticleObserveFinalize g) = cvParticleObserveFinalize g ∧
  cvParticleObserveInitialize (cvParticleObserveFinalize g) = cvParticleObserveInitialize g ∧
  ∀ g', cvParticleObserveInitialize g = Returned g' →
    cvParticleObserveInitialize g' = Returned g' ∧
    cvParticleObserveFinalize g' = cvParticleObserveFinalize g.
Proof.
  split_and!; try done.
  - by destruct g.
  - intros g'. unfold cvParticleObserveInitialize. simpl.
    destruct (cvLoad (data_dir g +:+ data_pcaval g)) eqn:E1; simpl; [|done].
    destruct (cvLoad (data_dir g +:+ data_pcavec g)) eqn:E2; simpl; [|done].
    destruct (cvLoad (data_dir g +:+ data_pcaavg g)) eqn:E3; simpl; [|done].
    intros [= <-]. simpl. rewrite E1. simpl. rewrite E2. simpl. rewrite E3. simpl. done.
Qed.

End MoreLifecycle.

(** ** cvparticleobservetemplate.h: more on scoring *)

Section MoreTemplate.
Import Particle ObserveTemplate.
Context `{Collaborators}.









End MoreTemplate.

(** ** cvrectpoints.h and cvpointrecttest.h: the two branches *)

Section MoreRectPoints.
Import RectPoints.
Context `{Collaborators}.

Lemma is_zero_spec (f : float) : is_zero f = true ↔ ∃ s, f = S754_zero s.
Proof.
  unfold is_zero. destruct f as [s|s| |s m e]; simpl; split; try done.
  - eauto.
  - by destruct s.
  - by intros [? [=]].
  - by intros [? [=]].
  - by destruct s.
  - by intros [? [=]].
Qed.

(** X13. [cvRect32fPoints] takes the rotated-box branch exactly when both
    components of the shear compare equal to zero, that is when each is
    [+0.0] or [-0.0]; any other shear, a NaN component included, takes the
    affine branch.  The first branch never fails and does not look at the
    affine matrix; the second does not look at [cvBoxPoints]. *)
Theorem rect_points_branches (rect : Rect32f.CvRect32f) (shear : Cv.CvPoint2D32f) :
  ((∃ sx sy, Cv.x shear = S754_zero sx ∧ Cv.y shear = S754_zero sy) →
   cvRect32fPoints rect shear = Some (cvBoxPoints (cvBox2DFromRect32f rect))) ∧
  (¬ (∃ sx sy, Cv.x shear = S754_zero sx ∧ Cv.y shear = S754_zero sy) →
   cvRect32fPoints rect shear =
   mapM (affine_apply (cvCreateAffine rect shear)) unit_square).
Proof.
  unfold cvRect32fPoints. split.
  - intros (sx & sy & -> & ->). done.
  - intros Hnz. destruct (is_zero (Cv.x shear)) eqn:Ex; [|done].
    destruct (is_zero (Cv.y shear)) eqn:Ey; [|done].
    apply is_zero_spec in Ex as [sx Hx]. apply is_zero_spec in Ey as [sy Hy].
    destruct Hnz. eauto.
Qed.



(** The point test is the polygon test on the corners of
    [cvRect32fPoints]: without shear it never fails and tests against the
    corners of the rotated box, the integer variant always does so, and
    with a shear it fails exactly when the corners do. *)
Lemma point_rect_test_defined (pt : Cv.CvPoint2D32f) (measure_dist : Z) :
  (∀ rect sx sy,
     cvPointRect32fTest rect pt measure_dist
       (Cv.cvPoint2D32f (S754_zero sx) (S754_zero sy)) =
     Some (cvPointPolygonTest (cvBoxPoints (cvBox2DFromRect32f rect)) pt measure_dist)) ∧
  (∀ rect,
     cvPointRectTest rect pt measure_dist =
     Some (cvPointPolygonTest
             (cvBoxPoints (cvBox2DFromRect32f (cvRect32fFromRect rect))) pt measure_dist)) ∧
  (∀ rect shear,
     cvPointRect32fTest rect pt measure_dist shear = None ↔
     cvRect32fPoints rect shear = None) ∧
  (∀ rect shear pts,
     cvRect32fPoints rect shear = Some pts →
     cvPointRect32fTest rect pt measure_dist shear =
     Some (cvPointPolygonTest pts pt measure_dist)).
Proof.
  split_and!.
  - intros rect sx sy. unfold cvPointRect32fTest, cvRect32fPoints. done.
  - done.
  - intros rect shear. unfold cvPointRect32fTest.
    by destruct (cvRect32fPoints rect shear).
  - intros rect shear pts Hpts. unfold cvPointRect32fTest. by rewrite Hpts.
Qed.

End MoreRectPoints.

(** ** cvparticlestaterect.h: more on the configuration *)

Section MoreConfig.
Import Particle ParticleState.

(** X15. The noise vector that [cvParticleStateConfig] builds for a
    five-state ensemble, and hands to [cvParticleSetNoise] together with the
    generator seeded from the clock, is the 5x1 column of the standard
    deviations in the row order of the state accessors: read as the state of
    a one-column state matrix it is the caller's [std] itself. *)
Theorem config_noise_layout (now : Z) (p : CvParticle) (imsize : Cv.CvSize)
    (std : CvParticleState) :
  Particle.num_states p = ParticleState.num_states →
  let m := stdmat p std in
  Particle.std (cvParticleStateConfig now p imsize std) = m ∧
  Particle.rng (cvParticleStateConfig now p imsize std) = cvRNG now ∧
  rows m = 5 ∧ cols m = 1 ∧ mat_wf m ∧
  cvmGet m 0 0 = Some (x std) ∧ cvmGet m 1 0 = Some (y std) ∧
  cvmGet m 2 0 = Some (width std) ∧ cvmGet m 3 0 = Some (height std) ∧
  cvmGet m 4 0 = Some (angle std) ∧
  cvParticleStateGet (set_particles p m) 0 = Some std.
Proof.
  intros H5 m. subst m. unfold stdmat, cvMat, mat_wf, cvParticleStateGet, cvmGet, in_mat.
  simpl. rewrite H5. unfold ParticleState.num_states. destruct std. simpl.
  split_and!; try done. unfold stdmat, cvMat. simpl. by rewrite H5.
Qed.

(** X16. The dynamics table is written for five states: for an ensemble
    created with 2, 3 or 4 states, the header that [cvParticleStateConfig]
    lays over it rereads the 5-wide rows with a shorter stride, and the
    matrix handed to the engine has 0, not 2, at the diagonal entry
    [(1, 1)]. *)
Theorem config_dynamics_fewer_states (now : Z) (p : CvParticle) (imsize : Cv.CvSize)
    (std : CvParticleState) :
  2 <= Particle.num_states p <= 4 →
  let d := Particle.dynamics (cvParticleStateConfig now p imsize std) in
  rows d = Particle.num_states p ∧ cols d = Particle.num_states p ∧
  cvmGet d 0 0 = Some (double_of_int 2) ∧ cvmGet d 1 1 = Some (double_of_int 0).
Proof.
  intros Hn d. subst d. simpl. unfold cvmGet, in_mat, mat_index. simpl.
  rewrite !bool_decide_eq_true_2 by lia.
  assert (Particle.num_states p = 2 ∨ Particle.num_states p = 3 ∨
          Particle.num_states p = 4) as [->|[->| ->]] by lia; done.
Qed.

End MoreConfig.

(** ** cvparticlestaterect.h: drawing *)

Section MoreDraw.
Import Particle Draw.
Context `{Collaborators} `{Drawing}.

Lemma draw_loop_foldl (p : CvParticle) (color : CvScalar) (n : nat) :
  ∀ i img states,
    mapM (ParticleState.cvParticleStateGet p) (seqZ i (Z.of_nat n)) = Some states →
    for_loop (λ img k, draw_particle p img color k) i n img =
    Some (foldl (λ im s,
                   cvDrawRectangle im (state_rect s)
                     (Cv.cvPoint2D32f (RectPoints.float_of_int 0) (RectPoints.float_of_int 0))
                     color) img states).
Proof.
  induction n as [|n IH]; intros i img states Hst.
  - simpl in Hst. by injection Hst as <-.
  - rewrite Nat2Z.inj_succ, seqZ_cons in Hst by lia. simpl in Hst.
    replace (Z.pred (Z.succ (Z.of_nat n))) with (Z.of_nat n) in Hst by lia.
    destruct (ParticleState.cvParticleStateGet p i) as [s|] eqn:Hs; simpl in Hst; [|done].
    destruct (mapM _ (seqZ (Z.succ i) _)) as [rest|] eqn:Hrest; simpl in Hst; [|done].
    injection Hst as <-. cbn [for_loop]. cbn beta.
    assert (draw_particle p img color i =
            Some (cvDrawRectangle img (state_rect s)
                    (Cv.cvPoint2D32f (RectPoints.float_of_int 0) (RectPoints.float_of_int 0))
                    color)) as -> by (unfold draw_particle; by rewrite Hs).
    cbn [mbind option_bind]. replace (i + 1) with (Z.succ i) by lia.
    rewrite (IH _ _ rest Hrest). done.
Qed.

(** X17. Drawing all particles ([pid = -1]) of a well-formed five-state
    ensemble never fails: it draws one rectangle per particle, in the order
    of the indices, each being the rectangle of that particle's state, and
    every rectangle without shear; an ensemble without particles leaves the
    image as it is. *)
Theorem draw_all_particles (p : CvParticle) (img : Ipl.IplImage) (color : CvScalar) :
  particle_wf p → Particle.num_states p = ParticleState.num_states →
  ∃ states,
    mapM (ParticleState.cvParticleStateGet p) (seqZ 0 (num_particles p)) = Some states ∧
    length states = Z.to_nat (num_particles p) ∧
    cvParticleStateDraw p img color (-1) =
    Some (foldl (λ im s,
                   cvDrawRectangle im (state_rect s)
                     (Cv.cvPoint2D32f (S754_zero false) (S754_zero false)) color)
                img states) ∧
    (num_particles p = 0 → cvParticleStateDraw p img color (-1) = Some img).
Proof.
  intros Hwf H5. pose proof Hwf as (HN & _).
  destruct (mapM (ParticleState.cvParticleStateGet p) (seqZ 0 (num_particles p)))
    as [states|] eqn:Hst.
  - exists states. split; [done|].
    pose proof (proj1 (mapM_Some _ _ _) Hst) as Hf. apply Forall2_length in Hf.
    rewrite length_seqZ in Hf. split; [done|].
    unfold cvParticleStateDraw. rewrite bool_decide_eq_true_2 by done. split.
    + apply draw_loop_foldl. by rewrite Z2Nat.id.
    + by intros ->.
  - exfalso.
    assert (is_Some (mapM (ParticleState.cvParticleStateGet p)
                          (seqZ 0 (num_particles p)))) as [? Hs];
      [|by rewrite Hs in Hst].
    apply mapM_is_Some, Forall_seqZ. intros k Hk. simpl.
    apply cvParticleStateGet_is_Some; (done || lia).
Qed.

End MoreDraw.

(** ** The further properties at the example data *)

Section MoreWitnesses.
Import Particle ParticleState.
#[local] Existing Instance Examples.collaborators.
#[local] Existing Instance MoreExamples.drawing.

Ltac concrete :=
  unfold particle_wf, mat_wf, ObserveTemplate.reference_fits, INT_MAX; simpl;
  repeat split; first [ reflexivity | lia | discriminate ].

Lemma state_set_frame_witness :
  ∃ p', cvParticleStateSet Examples.ensemble 1 Examples.state = Some p' ∧
        cvParticleStateGet p' 0 = cvParticleStateGet Examples.ensemble 0 ∧
        probs p' = probs Examples.ensemble.
Proof.
  eexists. split; [reflexivity|].
  destruct (state_set_frame Examples.ensemble 1 Examples.state _ eq_refl)
    as (Hother & _ & _ & Hprobs & _).
  split; [apply Hother; lia | exact Hprobs].
Defined.

Lemma state_get_set_identity_witness :
  cvParticleStateGet Examples.ensemble 1 = Some MoreExamples.second_state ∧
  cvParticleStateSet Examples.ensemble 1 MoreExamples.second_state = Some Examples.ensemble.
Proof.
  split; [reflexivity|].
  apply (state_get_set_identity Examples.ensemble 1 MoreExamples.second_state). reflexivity.
Defined.

Lemma state_set_set_witness :
  mat_wf (particles Examples.ensemble) ∧
  ∃ p1, cvParticleStateSet Examples.ensemble 1 Examples.state = Some p1 ∧
        cvParticleStateSet p1 1 MoreExamples.second_state =
        cvParticleStateSet Examples.ensemble 1 MoreExamples.second_state.
Proof.
  split; [concrete|]. eexists. split; [reflexivity|].
  refine (state_set_set Examples.ensemble 1 Examples.state MoreExamples.second_state
            _ _ eq_refl). concrete.
Defined.

Lemma state_set_commute_witness :
  mat_wf (particles Examples.ensemble) ∧ 0 ≠ 1 ∧
  ∃ p1 p2, cvParticleStateSet Examples.ensemble 0 Examples.state = Some p1 ∧
           cvParticleStateSet p1 1 Examples.state = Some p2 ∧
    ∃ q1, cvParticleStateSet Examples.ensemble 1 Examples.state = Some q1 ∧
          cvParticleStateSet q1 0 Examples.state = Some p2.
Proof.
  split; [concrete|]. split; [lia|]. eexists _, _.
  split; [reflexivity|]. split; [reflexivity|].
  refine (state_set_commute Examples.ensemble 0 1 Examples.state Examples.state
            _ _ _ _ eq_refl eq_refl); [concrete | lia].
Defined.

Lemma additional_bound_respects_bound_witness :
  particle_wf Examples.ensemble ∧
  Particle.num_states Examples.ensemble = ParticleState.num_states ∧
  ∃ p', cvParticleStateAdditionalBound Examples.ensemble Examples.imsize = Some p' ∧
    ∀ np, 0 <= np < num_particles Examples.ensemble →
      ∃ s s', cvParticleStateGet Examples.ensemble np = Some s ∧
        cvParticleStateGet p' np = Some s' ∧
        dlt (dsub (double_of_int (Cv.width Examples.imsize)) (x s')) (width s') = false ∧
        dlt (dsub (double_of_int (Cv.height Examples.imsize)) (y s')) (height s') = false ∧
        dlt (width s) (width s') = false ∧ dlt (height s) (height s') = false.
Proof.
  split; [concrete|]. split; [concrete|].
  apply (additional_bound_respects_bound Examples.ensemble Examples.imsize); concrete.
Defined.

Lemma additional_bound_unchanged_when_fits_witness :
  particle_wf Examples.ensemble ∧
  Particle.num_states Examples.ensemble = ParticleState.num_states ∧
  cvParticleStateAdditionalBound Examples.ensemble MoreExamples.large_imsize
  = Some Examples.ensemble.
Proof.
  split; [concrete|]. split; [concrete|].
  apply (additional_bound_unchanged_when_fits Examples.ensemble MoreExamples.large_imsize);
    [concrete | concrete |].
  intros np s Hnp Hs. simpl in Hnp.
  assert (np = 0 ∨ np = 1) as [-> | ->] by lia;
    injection Hs as <-; split; reflexivity.
Defined.

Lemma additional_bound_frame_witness :
  ∃ p', cvParticleStateAdditionalBound Examples.ensemble Examples.imsize = Some p' ∧
        probs p' = probs Examples.ensemble ∧
        cvmGet (particles p') 0 0 = cvmGet (particles Examples.ensemble) 0 0.
Proof.
  eexists. split; [reflexivity|].
  destruct (additional_bound_frame Examples.ensemble Examples.imsize _ eq_refl)
    as (_ & Hprobs & _ & _ & Hother).
  split; [exact Hprobs | apply Hother; lia].
Defined.





Lemma config_noise_layout_witness :
  Particle.num_states Examples.ensemble = ParticleState.num_states ∧
  cvParticleStateGet
    (set_particles Examples.ensemble (stdmat Examples.ensemble Examples.state)) 0
  = Some Examples.state.
Proof.
  split; [concrete|].
  apply (config_noise_layout 1225497600 Examples.ensemble Examples.imsize Examples.state).
  concrete.
Defined.

Lemma config_dynamics_fewer_states_witness :
  2 <= Particle.num_states MoreExamples.three_states <= 4 ∧
  cvmGet (Particle.dynamics (cvParticleStateConfig 1225497600 MoreExamples.three_states
                               Examples.imsize Examples.state)) 1 1
  = Some (double_of_int 0).
Proof.
  split; [concrete|].
  apply (config_dynamics_fewer_states 1225497600 MoreExamples.three_states Examples.imsize
           Examples.state). concrete.
Defined.

Lemma draw_all_particles_witness :
  particle_wf Examples.ensemble ∧
  Particle.num_states Examples.ensemble = ParticleState.num_states ∧
  Draw.cvParticleStateDraw Examples.ensemble Examples.frame MoreExamples.red (-1)
  = Some (Ipl.mkIplImage 2 1 8 1 [ 10; 20; 50; 2 ]).
Proof.
  split; [concrete|]. split; [concrete|].
  destruct (draw_all_particles Examples.ensemble Examples.frame MoreExamples.red)
    as (states & Hst & _ & Hdraw & _); [concrete..|].
  injection Hst as <-. exact Hdraw.
Defined.

End MoreWitnesses.

(** ** cvparticleobservepcadiffs.h: scoring needs the model *)

Section MorePca.
Import Particle ObservePcaDiffs.
Context `{Collaborators}.


End MorePca.

(** ** Patches that cannot be allocated *)

Section PatchAllocation.
Import Particle.
Context `{Collaborators}.

(** A loop that returns has run every iteration, each from a state that
    satisfies the invariant. *)
Lemma for_loop_reaches {S : Type} (body : S → Z → option S) (Inv : S → Prop) n :
  ∀ i s s',
  Inv s → (∀ k t t', Inv t → body t k = Some t' → Inv t') →
  for_loop body i n s = Some s' →
  ∀ k, i <= k < i + Z.of_nat n → ∃ t t', Inv t ∧ body t k = Some t'.
Proof.
  induction n as [|n IH]; intros i s s' Hs Hstep Hrun k Hk; [lia|].
  simpl in Hrun. destruct (body s i) as [t|] eqn:Hb; simpl in Hrun; [|done].
  destruct (decide (k = i)) as [->|Hne]; [by exists s, t|].
  apply (IH (i + 1) t s'); [by apply (Hstep i s t) | done | done | lia].
Qed.

(** X19. Template scoring does not return when the integer rectangle of
    one of the particles has a negative width or height: the patch of that
    particle cannot be allocated. *)
Theorem template_scoring_rejects_negative_rectangle (fs : Cv.CvSize) (p : CvParticle)
    (frame reference : Ipl.IplImage) (i : Z) (s : ParticleState.CvParticleState) :
  0 <= i < num_particles p → ParticleState.cvParticleStateGet p i = Some s →
  Cv.rwidth (ObserveTemplate.state_rect s) < 0 ∨
    Cv.rheight (ObserveTemplate.state_rect s) < 0 →
  ObserveTemplate.cvParticleObserveLikelihood fs p frame reference = None.
Proof.
  intros Hi Hs Hneg. unfold ObserveTemplate.cvParticleObserveLikelihood.
  destruct (cvCreateImage fs _ _) as [resize|]; [|done]. cbn [mbind option_bind].
  destruct (for_loop _ _ _ _) as [st|] eqn:Hrun; [|done]. exfalso.
  assert (∀ k t t', particles t.1 = particles p →
            ObserveTemplate.likelihood_body frame reference t k = Some t' →
            particles t'.1 = particles p) as Hstep.
  { intros k [q rz] [q' rz'] Hq (_ & _ & _ & _ & _ & _ & Hsame)%likelihood_body_inv.
    simpl in *. rewrite <- Hq, <- Hsame. by destruct q'. }
  destruct (for_loop_reaches _ (λ st, particles st.1 = particles p) _ 0 (p, resize) st
              eq_refl Hstep Hrun i) as ([t rz] & [t' rz'] & Hparts & Hbody); [lia|].
  apply likelihood_body_inv in Hbody as (s' & Hs' & Hw & Hh & _).
  simpl in Hparts. unfold ParticleState.cvParticleStateGet in Hs, Hs'.
  rewrite Hparts, Hs in Hs'. injection Hs' as <-. lia.
Qed.

(** X20. Feature extraction does not return when the rounded width or
    height of one of the particles is negative: the patch of that particle
    cannot be allocated. *)
Theorem get_features_rejects_negative_patch (fs : Cv.CvSize) (p : CvParticle)
    (frame : Ipl.IplImage) (features : CvMat) (i : Z)
    (s : ParticleState.CvParticleState) :
  0 <= i < num_particles p → ParticleState.cvParticleStateGet p i = Some s →
  cvRound (ParticleState.width s) < 0 ∨ cvRound (ParticleState.height s) < 0 →
  ObservePcaDiffs.icvGetFeatures fs p frame features = None.
Proof.
  intros Hi Hs Hneg. unfold ObservePcaDiffs.icvGetFeatures. cbv zeta.
  destruct (for_loop _ _ _ _) as [st|] eqn:Hrun; [|done]. exfalso.
  destruct (for_loop_reaches _ (λ _, True) _ _ _ _ I (λ _ _ _ _ _, I) Hrun i)
    as (t & t' & _ & Hbody); [lia|].
  unfold ObservePcaDiffs.get_features_body in Hbody. rewrite Hs in Hbody.
  cbn [mbind option_bind] in Hbody.
  destruct (cvCreateImage _ _ _) as [patch|] eqn:Hpatch; [|done].
  apply cvCreateImage_inv in Hpatch as [(Hw & Hh & _) _]. simpl in Hw, Hh. lia.
Qed.

End PatchAllocation.

Section PatchAllocationWitnesses.
Import Particle ParticleState.
#[local] Existing Instance Examples.collaborators.

Lemma template_scoring_rejects_negative_rectangle_witness :
  0 <= 0 < num_particles MoreExamples.negative_width ∧
  cvParticleStateGet MoreExamples.negative_width 0 = Some MoreExamples.negative_width_state ∧
  Cv.rwidth (ObserveTemplate.state_rect MoreExamples.negative_width_state) = -50 ∧
  ObserveTemplate.cvParticleObserveLikelihood Examples.feature_size
    MoreExamples.negative_width Examples.frame Examples.reference = None.
Proof.
  split; [simpl; lia|]. split; [reflexivity|]. split; [reflexivity|].
  apply (template_scoring_rejects_negative_rectangle Examples.feature_size
           MoreExamples.negative_width Examples.frame Examples.reference 0
           MoreExamples.negative_width_state);
    [simpl; lia | reflexivity | left; vm_compute; reflexivity].
Defined.

Lemma get_features_rejects_negative_patch_witness :
  0 <= 0 < num_particles MoreExamples.negative_width ∧
  cvParticleStateGet MoreExamples.negative_width 0 = Some MoreExamples.negative_width_state ∧
  cvRound (width MoreExamples.negative_width_state) = -50 ∧
  ObservePcaDiffs.icvGetFeatures (Cv.cvSize 2 2) MoreExamples.negative_width
    Examples.frame (cvCreateMat 4 1) = None.
Proof.
  split; [simpl; lia|]. split; [reflexivity|]. split; [reflexivity|].
  apply (get_features_rejects_negative_patch (Cv.cvSize 2 2)
           MoreExamples.negative_width Examples.frame (cvCreateMat 4 1) 0
           MoreExamples.negative_width_state);
    [simpl; lia | reflexivity | left; vm_compute; reflexivity].
Defined.

End PatchAllocationWitnesses.
